(** * hhgrdiff: the Hardhat gas report diff tool

    A shallow embedding of [hhgrdiff/__main__.py]: the line flattener, the
    three-state report parser and the Markdown diff formatter, followed by
    the properties of each that the specification states. *)

From Stdlib Require Import ZArith NArith List Ascii String Lia SpecFloat.
From Stdlib Require DecimalPos DecimalN.
From stdpp Require Import gmap list sorting.

Local Open Scope Z_scope.
Local Open Scope list_scope.

(** ** Python strings

    A Python [str] is a sequence of Unicode code points; [split], [strip],
    [in], [==] and [<] all work code point by code point.  A code point is
    an [N], a string a list of them. *)

Abbreviation pystr := (list N).

(** String literals of the source file are UTF-8; [u] decodes one.  [pend]
    counts the continuation bytes still expected and [acc] holds the bits
    read so far. *)
Fixpoint decode_utf8 (pend : nat) (acc : N) (bs : list N) : pystr :=
  match bs with
  | [] => []
  | b :: bs' =>
      match pend with
      | S k =>
          let acc' := (acc * 64 + N.land b 63)%N in
          match k with
          | O => acc' :: decode_utf8 0 0%N bs'
          | S _ => decode_utf8 k acc' bs'
          end
      | O =>
          if (b <? 128)%N then b :: decode_utf8 0 0%N bs'
          else if (b <? 224)%N then decode_utf8 1 (N.land b 31) bs'
          else if (b <? 240)%N then decode_utf8 2 (N.land b 15) bs'
          else decode_utf8 3 (N.land b 7) bs'
      end
  end.

Definition u (s : string) : pystr :=
  decode_utf8 0 0%N (List.map N_of_ascii (list_ascii_of_string s)).

(** [c in chars] for a one-character [c]. *)
Definition char_in (chars : pystr) (c : N) : bool :=
  existsb (N.eqb c) chars.

(** [bool(s)] for a string: the empty string is falsy. *)
Definition truthy (s : pystr) : bool :=
  match s with [] => false | _ :: _ => true end.

Module Str.

(** [s.split(sep)] for a one-character separator: cut at every
    occurrence, so a string with n separators gives n+1 segments. *)
Fixpoint split (sep : N) (s : pystr) : list pystr :=
  match s with
  | [] => [[]]
  | c :: s' =>
      if (c =? sep)%N then [] :: split sep s'
      else match split sep s' with
           | seg :: rest => (c :: seg) :: rest
           | [] => [[c]]
           end
  end.

(** [sep.join(parts)]. *)
Fixpoint join (sep : pystr) (parts : list pystr) : pystr :=
  match parts with
  | [] => []
  | [p] => p
  | p :: rest => p ++ sep ++ join sep rest
  end.

Fixpoint lstrip (chars : pystr) (s : pystr) : pystr :=
  match s with
  | [] => []
  | c :: s' => if char_in chars c then lstrip chars s' else s
  end.

Definition rstrip (chars : pystr) (s : pystr) : pystr :=
  reverse (lstrip chars (reverse s)).

(** [s.strip(chars)]: drop the characters of [chars] from both ends. *)
Definition strip (chars : pystr) (s : pystr) : pystr :=
  rstrip chars (lstrip chars s).

Fixpoint startswith (s prefix : pystr) : bool :=
  match prefix, s with
  | [], _ => true
  | _ :: _, [] => false
  | p :: prefix', c :: s' => (c =? p)%N && startswith s' prefix'
  end.

(** [needle in s]: substring test. *)
Fixpoint contains (needle s : pystr) : bool :=
  startswith s needle ||
  match s with
  | [] => false
  | _ :: s' => contains needle s'
  end.

End Str.

(** ** The line flattener *)

Definition MIDDLE_DOT : N := 183.        (* '·' U+00B7 *)
Definition BOX_VERTICAL : N := 9474.     (* '│' U+2502 *)
Definition PIPE : N := 124.              (* '|' *)
Definition SPACE : N := 32.
Definition NEWLINE : N := 10.

(** The argument of [strip] in [flatten_line]: '│| \n'. *)
Definition STRIP_CHARS : pystr := [BOX_VERTICAL; PIPE; SPACE; NEWLINE].

(** The comprehension of [flatten_line], over the list of segments: [col]
    is bound to the stripped segment, kept when it is truthy. *)
Fixpoint flatten_columns (columns : list pystr) : list pystr :=
  match columns with
  | [] => []
  | column :: rest =>
      let col := Str.strip STRIP_CHARS column in
      if truthy col then col :: flatten_columns rest
      else flatten_columns rest
  end.

Definition flatten_line (line : pystr) : list pystr :=
  flatten_columns (Str.split MIDDLE_DOT line).

(** ** Exceptions

    Code that can raise returns [result A]: the exception, or the value. *)

Inductive exn :=
| KeyError (key : pystr)
| ValueError
| ZeroDivisionError
| OverflowError.

Definition result (A : Type) : Type := exn + A.

Definition ret {A} (a : A) : result A := inr a.
Definition raise {A} (e : exn) : result A := inl e.
Definition bind {A B} (m : result A) (f : A -> result B) : result B :=
  match m with
  | inl e => inl e
  | inr a => f a
  end.

Declare Scope result_scope.
Delimit Scope result_scope with result.
Notation "'let*' x ':=' m 'in' k" := (bind m (fun x => k))
  (at level 10, x name, m at level 100, k at level 200) : result_scope.

(** ** Dictionaries

    A row of a report is a dict from column name to column text; a section
    of a report is a dict from key to row. *)

Abbreviation row := (gmap pystr pystr).
Abbreviation section := (gmap pystr (gmap pystr pystr)).

(** [dict(pairs)]: inserted left to right, so a later pair wins. *)
Definition dict {V} (pairs : list (pystr * V)) : gmap pystr V :=
  foldl (fun d kv => <[kv.1 := kv.2]> d) ∅ pairs.

(** [d[key]]. *)
Definition getitem {V} (d : gmap pystr V) (key : pystr) : result V :=
  match d !! key with
  | Some v => ret v
  | None => raise (KeyError key)
  end.

(** ** The report parser *)

Definition METHOD_COLUMNS : list pystr :=
  [u "contract"; u "method"; u "min"; u "max"; u "avg"; u "calls"; u "avgeur"].

Definition DEPLOYMENT_COLUMNS : list pystr :=
  [u "contract"; u "min"; u "max"; u "avg"; u "pctg"; u "avgeur"].

Inductive State := HEADER | METHODS | DEPLOYMENTS.

(** What [new_report_dict_from_file] returns:
    [dict(methods=methods, deployments=deployments)]. *)
Record report := Report {
  methods : gmap pystr (gmap pystr pystr);
  deployments : gmap pystr (gmap pystr pystr)
}.

Module Parser.

(** The local variables of [new_report_dict_from_file] that live across
    iterations of its loop. *)
Record locals := Locals {
  methods : gmap pystr (gmap pystr pystr);
  deployments : gmap pystr (gmap pystr pystr);
  state : State;
  next_state : State
}.

Definition set_next_state (s : State) (l : locals) : locals :=
  Locals (methods l) (deployments l) (state l) s.
Definition set_state (s : State) (l : locals) : locals :=
  Locals (methods l) (deployments l) s (next_state l).
Definition set_methods (m : gmap pystr (gmap pystr pystr)) (l : locals) : locals :=
  Locals m (deployments l) (state l) (next_state l).
Definition set_deployments (d : gmap pystr (gmap pystr pystr)) (l : locals) : locals :=
  Locals (methods l) d (state l) (next_state l).

Definition init : locals := Locals ∅ ∅ HEADER HEADER.

Local Open Scope result_scope.

(** The [if]/[elif] chain on [state], without the closing
    [state = next_state].  The final [else: raise RuntimeError] has no
    counterpart: [State] has three values and the match covers them. *)
Definition dispatch (l : locals) (line : pystr) : result locals :=
  match state l with
  | HEADER =>
      if Str.contains (u "Contract") line
      then ret (set_next_state METHODS l)
      else ret l
  | METHODS =>
      if Str.contains (u "Deployments") line
      then ret (set_next_state DEPLOYMENTS l)
      else
        let data := flatten_line line in
        if (length data =? length METHOD_COLUMNS)%nat then
          let labeled_data := dict (zip METHOD_COLUMNS data) in
          let* contract := getitem labeled_data (u "contract") in
          let* method := getitem labeled_data (u "method") in
          let key := contract ++ u "." ++ method in
          ret (set_methods (<[key := labeled_data]> (methods l)) l)
        else ret l
  | DEPLOYMENTS =>
      let data := flatten_line line in
      if (length data =? length DEPLOYMENT_COLUMNS)%nat then
        let labeled_data := dict (zip DEPLOYMENT_COLUMNS data) in
        let* key := getitem labeled_data (u "contract") in
        ret (set_deployments (<[key := labeled_data]> (deployments l)) l)
      else ret l
  end.

(** One iteration of [for line in fp]. *)
Definition body (l : locals) (line : pystr) : result locals :=
  let* l' := dispatch l line in
  ret (set_state (next_state l') l').

(** The whole loop over the lines the file object yields. *)
Fixpoint loop (l : locals) (lines : list pystr) : result locals :=
  match lines with
  | [] => ret l
  | line :: rest => let* l' := body l line in loop l' rest
  end.

End Parser.

(** [new_report_dict_from_file], from the lines of the opened file (each
    with its line end, as iteration over a text file gives them). *)
Definition new_report_dict_from_file (lines : list pystr) : result report :=
  bind (Parser.loop Parser.init lines)
       (fun l => ret (Report (Parser.methods l) (Parser.deployments l))).

(** ** Integers and floats of the formatter *)

Module Py.

(** White space as [int] sees it in an ASCII text: space, tab, line feed,
    vertical tab, form feed, carriage return. *)
Definition is_space (c : N) : bool :=
  ((c =? 32) || ((9 <=? c) && (c <=? 13)))%N.

Definition is_digit (c : N) : bool := ((48 <=? c) && (c <=? 57))%N.

Definition digit_value (c : N) : Z := Z.of_N (c - 48).

Definition UNDERSCORE : N := 95.
Definition PLUS : N := 43.
Definition MINUS : N := 45.
Definition QUESTION_MARK : N := 63.

Definition in_ranges (ranges : list (N * N)) (c : N) : bool :=
  existsb (fun '(lo, hi) => (lo <=? c) && (c <=? hi))%N ranges.

(** The white space characters of the Unicode database (version 14.0, the
    one of CPython 3.11), as ranges of code points. *)
Definition UNICODE_SPACES : list (N * N) :=
  [(0x9, 0xD); (0x1C, 0x20); (0x85, 0x85); (0xA0, 0xA0); (0x1680, 0x1680);
   (0x2000, 0x200A); (0x2028, 0x2029); (0x202F, 0x202F); (0x205F, 0x205F);
   (0x3000, 0x3000)]%N.

Definition unicode_isspace (c : N) : bool := in_ranges UNICODE_SPACES c.

(** The decimal digits of the Unicode database (version 14.0): ranges of
    code points, each starting at a digit zero and counting up, the digits
    repeating every ten code points. *)
Definition UNICODE_DECIMALS : list (N * N) :=
  [(0x30, 0x39); (0x660, 0x669); (0x6F0, 0x6F9); (0x7C0, 0x7C9);
   (0x966, 0x96F); (0x9E6, 0x9EF); (0xA66, 0xA6F); (0xAE6, 0xAEF);
   (0xB66, 0xB6F); (0xBE6, 0xBEF); (0xC66, 0xC6F); (0xCE6, 0xCEF);
   (0xD66, 0xD6F); (0xDE6, 0xDEF); (0xE50, 0xE59); (0xED0, 0xED9);
   (0xF20, 0xF29); (0x1040, 0x1049); (0x1090, 0x1099); (0x17E0, 0x17E9);
   (0x1810, 0x1819); (0x1946, 0x194F); (0x19D0, 0x19D9); (0x1A80, 0x1A89);
   (0x1A90, 0x1A99); (0x1B50, 0x1B59); (0x1BB0, 0x1BB9); (0x1C40, 0x1C49);
   (0x1C50, 0x1C59); (0xA620, 0xA629); (0xA8D0, 0xA8D9); (0xA900, 0xA909);
   (0xA9D0, 0xA9D9); (0xA9F0, 0xA9F9); (0xAA50, 0xAA59); (0xABF0, 0xABF9);
   (0xFF10, 0xFF19); (0x104A0, 0x104A9); (0x10D30, 0x10D39);
   (0x11066, 0x1106F); (0x110F0, 0x110F9); (0x11136, 0x1113F);
   (0x111D0, 0x111D9); (0x112F0, 0x112F9); (0x11450, 0x11459);
   (0x114D0, 0x114D9); (0x11650, 0x11659); (0x116C0, 0x116C9);
   (0x11730, 0x11739); (0x118E0, 0x118E9); (0x11950, 0x11959);
   (0x11C50, 0x11C59); (0x11D50, 0x11D59); (0x11DA0, 0x11DA9);
   (0x16A60, 0x16A69); (0x16AC0, 0x16AC9); (0x16B50, 0x16B59);
   (0x1D7CE, 0x1D7FF); (0x1E140, 0x1E149); (0x1E2F0, 0x1E2F9);
   (0x1E950, 0x1E959); (0x1FBF0, 0x1FBF9)]%N.

Definition unicode_todecimal (c : N) : option N :=
  match List.find (fun '(lo, hi) => (lo <=? c) && (c <=? hi))%N
          UNICODE_DECIMALS with
  | Some (lo, _) => Some ((c - lo) mod 10)%N
  | None => None
  end.

(** What [int] does to a text that is not ASCII before it reads it: white
    space becomes a space, a decimal digit its ASCII digit, and at the
    first character that is neither the text ends with a question mark. *)
Fixpoint transform_decimal_and_space (s : pystr) : pystr :=
  match s with
  | [] => []
  | ch :: s' =>
      if (ch <? 127)%N then ch :: transform_decimal_and_space s'
      else if unicode_isspace ch then 32%N :: transform_decimal_and_space s'
      else match unicode_todecimal ch with
           | Some d => (48 + d)%N :: transform_decimal_and_space s'
           | None => [QUESTION_MARK]
           end
  end.

Definition is_ascii (s : pystr) : bool := forallb (fun c => c <? 128)%N s.

Definition to_ascii (s : pystr) : pystr :=
  if is_ascii s then s else transform_decimal_and_space s.

(** The limit on the digits of an integer converted from or to text:
    above the threshold, a count over [max_str_digits] is refused, unless
    [max_str_digits] is 0.  4300 is the default of
    [sys.get_int_max_str_digits()]. *)
Definition MAX_STR_DIGITS_THRESHOLD : N := 640.
Definition max_str_digits : N := 4300.

Definition too_many_digits (strlen digits : N) : bool :=
  ((MAX_STR_DIGITS_THRESHOLD <? strlen) && (0 <? max_str_digits)
   && (max_str_digits <? digits))%N.

Fixpoint skip_space (s : pystr) : pystr :=
  match s with
  | c :: s' => if is_space c then skip_space s' else s
  | [] => []
  end.

(** The digit scan after the first digit: [digits] counts the digits read
    so far and [prev_us] tells whether the previous character was an
    underscore.  Returns the value, the number of digits and the rest of
    the string, or [None] on a doubled or trailing underscore. *)
Fixpoint scan_digits (acc : Z) (digits : N) (prev_us : bool) (s : pystr)
  : option (Z * N * pystr) :=
  match s with
  | c :: s' =>
      if is_digit c
      then scan_digits (10 * acc + digit_value c) (digits + 1) false s'
      else if (c =? UNDERSCORE)%N then
        if prev_us then None else scan_digits acc digits true s'
      else if prev_us then None else Some (acc, digits, s)
  | [] => if prev_us then None else Some (acc, digits, [])
  end.

Definition magnitude (s : pystr) : option (Z * N * pystr) :=
  match s with
  | c :: s' =>
      if is_digit c then scan_digits (digit_value c) 1 false s' else None
  | [] => None
  end.

(** [int(s)] for a string, base 10: optional white space, an optional
    sign, decimal digits in which single underscores may separate digits,
    optional white space; white space and digits may be any that Unicode
    has.  More digits than the limit are refused. *)
Definition int (s : pystr) : result Z :=
  let s1 := skip_space (to_ascii s) in
  let '(negative, s2) :=
    match s1 with
    | c :: s' =>
        if (c =? PLUS)%N then (false, s')
        else if (c =? MINUS)%N then (true, s')
        else (false, s1)
    | [] => (false, s1)
    end in
  match magnitude s2 with
  | Some (v, digits, rest) =>
      if too_many_digits digits digits then raise ValueError
      else
        match skip_space rest with
        | [] => ret (if negative then - v else v)
        | _ :: _ => raise ValueError
        end
  | None => raise ValueError
  end.

(** Decimal digits of a natural number. *)
Fixpoint uint_chars (d : Decimal.uint) : pystr :=
  match d with
  | Decimal.Nil => []
  | Decimal.D0 d => 48%N :: uint_chars d
  | Decimal.D1 d => 49%N :: uint_chars d
  | Decimal.D2 d => 50%N :: uint_chars d
  | Decimal.D3 d => 51%N :: uint_chars d
  | Decimal.D4 d => 52%N :: uint_chars d
  | Decimal.D5 d => 53%N :: uint_chars d
  | Decimal.D6 d => 54%N :: uint_chars d
  | Decimal.D7 d => 55%N :: uint_chars d
  | Decimal.D8 d => 56%N :: uint_chars d
  | Decimal.D9 d => 57%N :: uint_chars d
  end.

Definition decimal (n : N) : pystr := uint_chars (N.to_uint n).

Definition sign_char (negative : bool) : N := if negative then MINUS else PLUS.

(** ["{:+d}".format(n)]: the sign and the decimal digits, refused when the
    digits are more than the limit. *)
Definition format_plus_d (n : Z) : result pystr :=
  let negative := n <? 0 in
  let digits := decimal (Z.abs_N n) in
  let strlen := ((if negative then 1 else 0) + N.of_nat (length digits))%N in
  if too_many_digits strlen (N.of_nat (length digits))
  then raise ValueError
  else ret (sign_char negative :: digits).

(** Floats are IEEE 754 binary64 values. *)
Definition prec : Z := 53.
Definition emax : Z := 1024.

Definition float_of_int_exact (n : Z) : spec_float :=
  match n with
  | Z0 => S754_zero false
  | Zpos p => S754_finite false p 0
  | Zneg p => S754_finite true p 0
  end.

(** [a / b] on integers: the exact quotient rounded once to the nearest
    float, ties to even. *)
Definition int_true_divide (a b : Z) : result spec_float :=
  if b =? 0 then raise ZeroDivisionError
  else
    match SFdiv prec emax (float_of_int_exact a) (float_of_int_exact b) with
    | S754_infinity _ => raise OverflowError
    | q => ret q
    end.

(** [n * x] for the integer constant [n], exactly representable. *)
Definition int_times_float (n : Z) (x : spec_float) : spec_float :=
  SFmul prec emax (binary_normalize prec emax n 0 false) x.

(** [m * 2^e * 100] rounded to an integer, ties to even: the hundredths
    that the [.2f] presentation shows. *)
Definition hundredths (m : positive) (e : Z) : N :=
  let n := Z.pos m * 100 in
  if 0 <=? e then Z.to_N (n * 2 ^ e)
  else
    let d := 2 ^ (- e) in
    let q := n / d in
    let r := n mod d in
    Z.to_N (if 2 * r <? d then q
            else if d <? 2 * r then q + 1
            else if Z.even q then q else q + 1).

Definition two_digits (n : N) : pystr :=
  decimal (n / 10) ++ decimal (n mod 10).

Definition fixed2 (h : N) : pystr :=
  decimal (h / 100) ++ [46%N] ++ two_digits (h mod 100).

(** ["{:+.2f}".format(x)]. *)
Definition format_plus_2f (x : spec_float) : pystr :=
  match x with
  | S754_zero s => sign_char s :: fixed2 0
  | S754_infinity s => sign_char s :: [105; 110; 102]%N
  | S754_nan => PLUS :: [110; 97; 110]%N
  | S754_finite s m e => sign_char s :: fixed2 (hundredths m e)
  end.

End Py.

(** ** Standard output

    A function that prints returns what it printed, one string per call of
    [print], together with its outcome; lines printed before an exception
    stay printed. *)

Definition io (A : Type) : Type := (list pystr * result A)%type.

Module IO.

Definition ret {A} (a : A) : io A := ([], inr a).
Definition lift {A} (r : result A) : io A := ([], r).
Definition print (s : pystr) : io unit := ([s], inr tt).
Definition bind {A B} (m : io A) (f : A -> io B) : io B :=
  match m with
  | (out, inl e) => (out, inl e)
  | (out, inr a) => let '(out', r) := f a in (out ++ out', r)
  end.

(** [for x in xs: f(x)]. *)
Fixpoint for_each {A} (xs : list A) (f : A -> io unit) : io unit :=
  match xs with
  | [] => ret tt
  | x :: rest => bind (f x) (fun _ => for_each rest f)
  end.

End IO.

Declare Scope io_scope.
Delimit Scope io_scope with io.
Notation "'let*' x ':=' m 'in' k" := (IO.bind m (fun x => k))
  (at level 10, x name, m at level 100, k at level 200) : io_scope.
Notation "m ';;' k" := (IO.bind m (fun _ => k))
  (at level 100, k at level 200, right associativity) : io_scope.

(** ** The diff formatter *)

Definition MARKDOWN_TABLE_COLUMNS : list pystr :=
  [u "Method call or Contract deployment"; u "Before"; u "After";
   u "After - Before"; u "(After - Before) / Before"].

Definition MARKDOWN_TABLE_ALIGNMENTS : list pystr :=
  [u ":-"; u ":-:"; u ":-:"; u ":-:"; u ":-:"].

(** ['| {} |'.format(' | '.join(lst))]. *)
Definition table_line (lst : list pystr) : pystr :=
  u "| " ++ Str.join (u " | ") lst ++ u " |".

Definition print_list_in_markdown_table (lst : list pystr) : io unit :=
  IO.print (table_line lst).

(** Python orders strings by code point, a proper prefix first. *)
Fixpoint str_lt (a b : pystr) : bool :=
  match a, b with
  | _, [] => false
  | [], _ :: _ => true
  | x :: a', y :: b' => (x <? y)%N || ((x =? y)%N && str_lt a' b')
  end.

(** The order [sorted] puts two keys in: [a] before [b] unless [b < a]. *)
Definition str_le (a b : pystr) : Prop := str_lt b a = false.

#[global] Instance str_le_dec a b : Decision (str_le a b).
Proof. unfold str_le. apply _. Defined.

(** [sorted(xs)]. *)
Definition sorted (xs : list pystr) : list pystr := merge_sort str_le xs.

(** [set(d)]: the keys of a dict. *)
Definition keys {V} (d : gmap pystr V) : gset pystr := dom d.

Definition dicts_union {V} (d1 d2 : gmap pystr V) : list pystr :=
  sorted (elements (keys d1 ∪ keys d2)).

Definition calculate_line (before after : pystr) : result (list pystr) :=
  (let* before_int := Py.int before in
   let* after_int := Py.int after in
   let diff := after_int - before_int in
   let* diff_pct := Py.int_true_divide diff before_int in
   let* diff_text := Py.format_plus_d diff in
   ret [before; after;
        diff_text;
        Py.format_plus_2f (Py.int_times_float 100 diff_pct) ++ u "%"])%result.

(** The parsed command line, as far as the formatter reads it. *)
Record Args := { keep_zeros : bool; both : bool }.

(** [key in d]. *)
Definition has_key {V} (d : gmap pystr V) (key : pystr) : bool :=
  bool_decide (is_Some (d !! key)).

(** [d[key]['avg']]. *)
Definition avg_of (d : gmap pystr (gmap pystr pystr)) (key : pystr)
  : result pystr :=
  (let* r := getitem d key in getitem r (u "avg"))%result.

Definition print_table_line (before after : gmap pystr (gmap pystr pystr))
    (key : pystr) (args : Args) : io unit :=
  (let name := u "`" ++ key ++ u "`" in
   if has_key before key && has_key after key then
     let* before_avg := IO.lift (avg_of before key) in
     let* after_avg := IO.lift (avg_of after key) in
     if negb (negb (keep_zeros args) && bool_decide (before_avg = after_avg))
     then
       let* cells := IO.lift (calculate_line before_avg after_avg) in
       print_list_in_markdown_table ([name] ++ cells)
     else IO.ret tt
   else if negb (both args) then
     if has_key before key then
       let* before_avg := IO.lift (avg_of before key) in
       print_list_in_markdown_table [name; before_avg; u "-"; u "-"; u "-"]
     else if has_key after key then
       let* after_avg := IO.lift (avg_of after key) in
       print_list_in_markdown_table [name; u "-"; after_avg; u "-"; u "-"]
     else IO.ret tt
   else IO.ret tt)%io.

(** [datakey] is ['methods'] or ['deployments']: the field of the report it
    selects. *)
Definition print_subdict_in_markdown_table (before after : report)
    (datakey : report -> gmap pystr (gmap pystr pystr)) (args : Args)
  : io unit :=
  let before_data := datakey before in
  let after_data := datakey after in
  let all_keys := dicts_union before_data after_data in
  IO.for_each all_keys
    (fun key => print_table_line before_data after_data key args).

Definition format_markdown (before after : report) (args : Args) : io unit :=
  (print_list_in_markdown_table MARKDOWN_TABLE_COLUMNS ;;
   print_list_in_markdown_table MARKDOWN_TABLE_ALIGNMENTS ;;
   print_subdict_in_markdown_table before after methods args ;;
   print_subdict_in_markdown_table before after deployments args)%io.

(** The module run as a program: parse both files, then format. *)
Definition main (before_lines after_lines : list pystr) (args : Args)
  : io unit :=
  (let* before := IO.lift (new_report_dict_from_file before_lines) in
   let* after := IO.lift (new_report_dict_from_file after_lines) in
   format_markdown before after args)%io.

(** ** The flattener's contract *)

(** What the specification says of splitting: the segments, put back
    together with the separator between them, give the string, and no
    segment holds the separator. *)
Definition segments_of (sep : N) (s : pystr) (segs : list pystr) : Prop :=
  segs ≠ [] ∧ Forall (fun seg => sep ∉ seg) segs ∧ Str.join [sep] segs = s.

(** What it says of stripping: [t] is [s] less a run of boundary
    characters at each end, and no boundary character is left at either
    end of [t]. *)
Definition stripped_of (chars s t : pystr) : Prop :=
  ∃ pre suf, s = pre ++ t ++ suf ∧
    Forall (fun c => c ∈ chars) pre ∧ Forall (fun c => c ∈ chars) suf ∧
    (∀ c, head t = Some c → c ∉ chars) ∧ (∀ c, last t = Some c → c ∉ chars).

(** The contract of the flattener in the specification's words. *)
Definition flatten_spec (line : pystr) (out : list pystr) : Prop :=
  ∃ segs stripped,
    segments_of MIDDLE_DOT line segs ∧
    Forall2 (stripped_of STRIP_CHARS) segs stripped ∧
    out = filter (fun t => t ≠ []) stripped.

(** ** Parser states reached from the start *)

(** The value [auto()] gives each member of [State], in declaration order. *)
Definition State_value (s : State) : nat :=
  match s with
  | HEADER => 1
  | METHODS => 2
  | DEPLOYMENTS => 3
  end.

(** The locals as they stand after the loop has consumed some lines. *)
Definition reachable (l : Parser.locals) : Prop :=
  ∃ lines, Parser.loop Parser.init lines = ret l.

(** ** Sample report lines

    Lines in the layout the gas reporter prints, used to run the model. *)

Definition sample_columns_line : pystr :=
  u "|  Contract  ·  Method  ·  Min  ·  Max  ·  Avg  ·  # calls  ·  eur (avg)  │"
    ++ [NEWLINE].

Definition sample_method_line : pystr :=
  u "|  Greeter  ·  setGreeting  ·  34658  ·  34670  ·  34664  ·  2  ·  -  │"
    ++ [NEWLINE].

Definition sample_marker_line : pystr :=
  u "|  Deployments  ·  ·  % of limit  ·  │" ++ [NEWLINE].

Definition sample_deployment_line : pystr :=
  u "|  Greeter  ·  497026  ·  497038  ·  497032  ·  1.7 %  ·  -  │"
    ++ [NEWLINE].

(** A line that holds the marker of the deployments table and flattens to
    seven values, and one that flattens to six. *)
Definition marker_with_7_columns : pystr :=
  u "│ Deployments · a · 1 · 2 · 3 · 4 · 5 │" ++ [NEWLINE].

Definition marker_with_6_columns : pystr :=
  u "│ Deployments of Contract · 1 · 2 · 3 · 4 · 5 │" ++ [NEWLINE].

(** ** Sample reports *)

(** A report whose methods mapping holds one record with the given [avg]. *)
Definition report_with_avg (key avg : pystr) : report :=
  Report {[ key := {[ u "avg" := avg ]} ]} ∅.

(** ** Columns as the flattener returns them *)

(** A column text that is not empty, holds no middle dot and has no
    character of [STRIP_CHARS] at either end. *)
Definition clean_cell (t : pystr) : bool :=
  truthy t && negb (char_in t MIDDLE_DOT) &&
  match head t with
  | Some c => negb (char_in STRIP_CHARS c)
  | None => true
  end &&
  match last t with
  | Some c => negb (char_in STRIP_CHARS c)
  | None => true
  end.

(** ** Records as the parser stores them *)

(** Every record of a methods mapping is the seven method columns zipped
    with seven clean texts, under the key made of the first two. *)
Definition parsed_methods (sec : gmap pystr (gmap pystr pystr)) : Prop :=
  ∀ key r, sec !! key = Some r →
    ∃ contract method min max avg calls avgeur,
      Forall (fun t => clean_cell t = true)
        [contract; method; min; max; avg; calls; avgeur] ∧
      r = dict (zip METHOD_COLUMNS
                  [contract; method; min; max; avg; calls; avgeur]) ∧
      key = contract ++ u "." ++ method.

(** Every record of a deployments mapping is the six deployment columns
    zipped with six clean texts, under the first of them. *)
Definition parsed_deployments (sec : gmap pystr (gmap pystr pystr)) : Prop :=
  ∀ key r, sec !! key = Some r →
    ∃ contract min max avg pctg avgeur,
      Forall (fun t => clean_cell t = true)
        [contract; min; max; avg; pctg; avgeur] ∧
      r = dict (zip DEPLOYMENT_COLUMNS
                  [contract; min; max; avg; pctg; avgeur]) ∧
      key = contract.

(** Two reports with three method records each; the second record has avg
    "0" in the first report. *)
Definition three_methods_before : report :=
  Report {[ u "A.f" := {[ u "avg" := u "10" ]};
            u "B.g" := {[ u "avg" := u "0" ]};
            u "C.h" := {[ u "avg" := u "5" ]} ]} ∅.

Definition three_methods_after : report :=
  Report {[ u "A.f" := {[ u "avg" := u "20" ]};
            u "B.g" := {[ u "avg" := u "1" ]};
            u "C.h" := {[ u "avg" := u "6" ]} ]} ∅.

(** A method row whose avg is 0. *)
Definition sample_zero_avg_line : pystr :=
  u "|  Greeter  ·  setGreeting  ·  0  ·  0  ·  0  ·  2  ·  -  │"
    ++ [NEWLINE].

(** ** Rows of a report compared with nothing *)

(** The avg text of the record under [key], empty when there is none. *)
Definition avg_text (sec : gmap pystr (gmap pystr pystr)) (key : pystr)
  : pystr :=
  match sec !! key with
  | Some r => default [] (r !! u "avg")
  | None => []
  end.

(** The row of a key that only the after report has, and of one that only
    the before report has. *)
Definition added_row (sec : gmap pystr (gmap pystr pystr)) (key : pystr)
  : pystr :=
  table_line [u "`" ++ key ++ u "`"; u "-"; avg_text sec key; u "-"; u "-"].

Definition removed_row (sec : gmap pystr (gmap pystr pystr)) (key : pystr)
  : pystr :=
  table_line [u "`" ++ key ++ u "`"; avg_text sec key; u "-"; u "-"; u "-"].

(** ** Decimal digits read back *)

(** The number that the digits [d], most significant first, stand for when
    [acc] came before them. *)
Fixpoint uint_value (acc : Z) (d : Decimal.uint) : Z :=
  match d with
  | Decimal.Nil => acc
  | Decimal.D0 d => uint_value (10 * acc + 0) d
  | Decimal.D1 d => uint_value (10 * acc + 1) d
  | Decimal.D2 d => uint_value (10 * acc + 2) d
  | Decimal.D3 d => uint_value (10 * acc + 3) d
  | Decimal.D4 d => uint_value (10 * acc + 4) d
  | Decimal.D5 d => uint_value (10 * acc + 5) d
  | Decimal.D6 d => uint_value (10 * acc + 6) d
  | Decimal.D7 d => uint_value (10 * acc + 7) d
  | Decimal.D8 d => uint_value (10 * acc + 8) d
  | Decimal.D9 d => uint_value (10 * acc + 9) d
  end.

(** * Properties *)

(** ** Worked examples *)

Example literals_decode :
  u "·" = [MIDDLE_DOT] /\ u "│| " = [BOX_VERTICAL; PIPE; SPACE] /\
  u "│ foo · bar · hello world │" =
    [9474; 32; 102; 111; 111; 32; 183; 32; 98; 97; 114; 32; 183; 32; 104;
     101; 108; 108; 111; 32; 119; 111; 114; 108; 100; 32; 9474]%N.
Proof. repeat split; reflexivity. Qed.

Example flatten_docstring :
  flatten_line (u "│ foo · bar · hello world │") =
  [u "foo"; u "bar"; u "hello world"].
Proof. reflexivity. Qed.

Example int_examples :
  Py.int (u "100") = ret 100 ∧ Py.int (u " -4_2 ") = ret (-42) ∧
  Py.int (u "007") = ret 7 ∧ Py.int (u "100.0") = raise ValueError ∧
  Py.int (u "") = raise ValueError ∧ Py.int (u "1__0") = raise ValueError ∧
  Py.int (u "- 1") = raise ValueError ∧ Py.int (u "-") = raise ValueError.
Proof. repeat split; reflexivity. Qed.

(** White space and digits that are not ASCII: a no-break space (U+00A0),
    an em space (U+2003), Arabic-Indic and full-width digits are read; the
    information separator U+001C and a superscript two are not. *)
Example int_unicode_examples :
  Py.int (0xA0%N :: u "100") = ret 100 ∧
  Py.int (0x2003%N :: u "150") = ret 150 ∧
  Py.int [0x661; 0x660; 0x660]%N = ret 100 ∧
  Py.int (u "１２") = ret 12 ∧
  Py.int (u "+٥") = ret 5 ∧
  Py.int (u "٣_٤") = ret 34 ∧
  Py.int (0x1C%N :: u "1") = raise ValueError ∧
  Py.int (u "1²") = raise ValueError ∧
  Py.int (u "-" ++ 0xA0%N :: u "5") = raise ValueError.
Proof. repeat split; vm_compute; reflexivity. Qed.

(** The limit of 4300 digits, in both directions; leading zeros count,
    underscores do not. *)
Example digit_limit_examples :
  Py.int (repeat 49%N 4300) = ret ((10 ^ 4300 - 1) / 9) ∧
  Py.int (repeat 49%N 4301) = raise ValueError ∧
  Py.int (repeat 48%N 4301) = raise ValueError ∧
  Py.format_plus_d (10 ^ 4300) = raise ValueError ∧
  Py.int (u "1_" ++ repeat 49%N 4299) = ret ((10 ^ 4300 - 1) / 9).
Proof.
  repeat match goal with |- _ ∧ _ => split end; vm_compute; reflexivity.
Qed.

Example format_examples :
  let pct a b :=
    bind (Py.int_true_divide a b) (fun x => ret (Py.format_plus_2f x)) in
  Py.format_plus_d 120 = ret (u "+120") ∧
  Py.format_plus_d (-45) = ret (u "-45") ∧
  Py.format_plus_d 0 = ret (u "+0") ∧
  pct 1 3 = ret (u "+0.33") ∧ pct (-1) 40000 = ret (u "-0.00") ∧
  pct 0 (-5) = ret (u "-0.00") ∧ pct 1005 1000 = ret (u "+1.00") ∧
  pct 1015 1000 = ret (u "+1.01") ∧ pct 5 2 = ret (u "+2.50") ∧
  pct 1 0 = raise ZeroDivisionError.
Proof. repeat split; vm_compute; reflexivity. Qed.

(** ** The line flattener *)

Lemma char_in_spec chars c : char_in chars c = true ↔ c ∈ chars.
Proof.
  unfold char_in. rewrite existsb_exists. split.
  - intros (x & Hin & Heq). apply N.eqb_eq in Heq. subst.
    by apply list_elem_of_In.
  - intros Hin. exists c. split; [by apply list_elem_of_In | apply N.eqb_refl].
Qed.

Lemma char_in_false chars c : char_in chars c = false ↔ c ∉ chars.
Proof.
  rewrite <- char_in_spec. destruct (char_in chars c); split; congruence.
Qed.

Lemma join_cons2 sep p q rest :
  Str.join sep (p :: q :: rest) = p ++ sep ++ Str.join sep (q :: rest).
Proof. reflexivity. Qed.

Lemma split_not_nil sep s : Str.split sep s ≠ [].
Proof.
  destruct s as [|c s]; simpl; [done|].
  destruct (c =? sep)%N; [done|]. by destruct (Str.split sep s).
Qed.

Lemma split_segments sep s : segments_of sep s (Str.split sep s).
Proof.
  split; [apply split_not_nil|].
  induction s as [|c s [IHf IHj]]; simpl.
  - split; [|done]. constructor; [|done]. by intros ?%elem_of_nil.
  - destruct (N.eqb_spec c sep) as [->|Hne].
    + split.
      * constructor; [by intros ?%elem_of_nil | done].
      * pose proof (split_not_nil sep s) as Hnn.
        destruct (Str.split sep s) as [|q rest]; [done|].
        by rewrite join_cons2, IHj.
    + pose proof (split_not_nil sep s) as Hnn.
      destruct (Str.split sep s) as [|seg rest]; [done|].
      apply Forall_cons in IHf as [Hseg Hrest]. split.
      * constructor; [|done]. intros [?|?]%elem_of_cons; [congruence|done].
      * destruct rest as [|q rest]; simpl in *; by rewrite IHj.
Qed.

Lemma segments_unique sep s segs :
  segments_of sep s segs → segs = Str.split sep s.
Proof.
  revert segs. induction s as [|c s IH]; intros segs (Hnn & Hf & Hj).
  - destruct segs as [|seg rest]; [done|].
    destruct rest as [|q rest]; simpl in Hj.
    + by subst.
    + by destruct seg.
  - destruct segs as [|seg rest]; [done|].
    apply Forall_cons in Hf as [Hseg Hrest]. simpl.
    destruct (N.eqb_spec c sep) as [->|Hne].
    + destruct seg as [|x seg].
      * destruct rest as [|q rest]; [done|].
        rewrite join_cons2 in Hj. simpl in Hj. injection Hj as Hj.
        f_equal. apply IH. by repeat split.
      * exfalso. apply Hseg.
        destruct rest; simpl in Hj; injection Hj as -> _; by left.
    + destruct seg as [|x seg].
      * destruct rest as [|q rest]; [done|].
        rewrite join_cons2 in Hj. simpl in Hj. congruence.
      * assert (x = c ∧ Str.join [sep] (seg :: rest) = s) as [-> Hj'].
        { destruct rest; simpl in *; by injection Hj. }
        rewrite <- (IH (seg :: rest)); [done|].
        repeat split; [done| |done].
        constructor; [|done]. intros ?. apply Hseg. by right.
Qed.

Lemma lstrip_split chars s :
  ∃ pre, s = pre ++ Str.lstrip chars s ∧ Forall (fun c => c ∈ chars) pre ∧
         ∀ c, head (Str.lstrip chars s) = Some c → c ∉ chars.
Proof.
  induction s as [|c s (pre & Heq & Hpre & Hhd)]; simpl.
  - exists []. repeat split; [constructor | done].
  - destruct (char_in chars c) eqn:Hc.
    + exists (c :: pre). simpl. rewrite <- Heq. repeat split; [|done].
      constructor; [by apply char_in_spec | done].
    + exists []. repeat split; [constructor|].
      simpl. intros ? [= <-]. by apply char_in_false.
Qed.

Lemma lstrip_all chars pre s :
  Forall (fun c => c ∈ chars) pre →
  Str.lstrip chars (pre ++ s) = Str.lstrip chars s.
Proof.
  induction 1 as [|c pre Hc _ IH]; simpl; [done|].
  apply char_in_spec in Hc. by rewrite Hc.
Qed.

Lemma lstrip_head chars s :
  (∀ c, head s = Some c → c ∉ chars) → Str.lstrip chars s = s.
Proof.
  destruct s as [|c s]; simpl; [done|]. intros H.
  specialize (H c eq_refl). apply char_in_false in H. by rewrite H.
Qed.

Lemma strip_stripped chars s : stripped_of chars s (Str.strip chars s).
Proof.
  unfold Str.strip, Str.rstrip.
  destruct (lstrip_split chars s) as (pre & Hs & Hpre & Hhd).
  set (t := Str.lstrip chars s) in *.
  destruct (lstrip_split chars (reverse t)) as (fus & Ht & Hfus & Hlast).
  set (r := Str.lstrip chars (reverse t)) in *.
  assert (t = reverse r ++ reverse fus) as Ht'.
  { rewrite <- reverse_app, <- Ht. by rewrite reverse_involutive. }
  exists pre, (reverse fus). repeat split.
  - by rewrite <- Ht'.
  - done.
  - by apply Forall_reverse.
  - intros c Hc. apply Hhd. rewrite Ht'.
    by destruct (reverse r).
  - intros c Hc. apply Hlast. by rewrite last_reverse in Hc.
Qed.

Lemma stripped_unique chars s t :
  stripped_of chars s t → t = Str.strip chars s.
Proof.
  intros (pre & suf & -> & Hpre & Hsuf & Hhd & Hlast).
  unfold Str.strip, Str.rstrip. rewrite lstrip_all by done.
  destruct t as [|c t].
  - simpl. rewrite <- (app_nil_r suf) at 1. by rewrite lstrip_all.
  - rewrite (lstrip_head chars ((c :: t) ++ suf))
      by (intros x Hx; apply Hhd; exact Hx).
    rewrite reverse_app, lstrip_all by (by apply Forall_reverse).
    rewrite lstrip_head, reverse_involutive; [done|].
    intros x Hx. apply Hlast. by rewrite <- head_reverse.
Qed.

Lemma flatten_columns_filter columns :
  flatten_columns columns =
  filter (fun t => t ≠ []) (Str.strip STRIP_CHARS <$> columns).
Proof.
  induction columns as [|column rest IH]; [done|].
  cbn [flatten_columns fmap list_fmap]. rewrite filter_cons, <- IH.
  by destruct (Str.strip STRIP_CHARS column).
Qed.

Lemma flatten_line_meets_spec line : flatten_spec line (flatten_line line).
Proof.
  exists (Str.split MIDDLE_DOT line),
         (Str.strip STRIP_CHARS <$> Str.split MIDDLE_DOT line).
  split; [apply split_segments|]. split; [|apply flatten_columns_filter].
  apply Forall2_fmap_r, Forall_Forall2_diag, Forall_forall.
  intros seg _. apply strip_stripped.
Qed.

Lemma flatten_spec_unique line out :
  flatten_spec line out → out = flatten_line line.
Proof.
  intros (segs & stripped & Hsegs & Hstr & ->).
  apply segments_unique in Hsegs as ->.
  unfold flatten_line. rewrite flatten_columns_filter. f_equal.
  induction Hstr as [|seg t segs' ts Hst _ IH]; [done|].
  cbn [fmap list_fmap]. f_equal; [by apply stripped_unique | done].
Qed.

Lemma split_without_sep sep s : sep ∉ s → Str.split sep s = [s].
Proof.
  induction s as [|c s IH]; [done|]. intros Hn. simpl.
  destruct (N.eqb_spec c sep) as [->|_]; [exfalso; apply Hn; by left|].
  rewrite IH; [done|]. intros ?. apply Hn. by right.
Qed.

Lemma strip_all_chars chars s :
  Forall (fun c => c ∈ chars) s → Str.strip chars s = [].
Proof.
  intros H. unfold Str.strip, Str.rstrip.
  rewrite <- (app_nil_r s), lstrip_all by done. done.
Qed.

Lemma flatten_columns_all_chars columns :
  Forall (Forall (fun c => c ∈ STRIP_CHARS)) columns →
  flatten_columns columns = [].
Proof.
  induction 1 as [|column rest Hc _ IH]; [done|].
  cbn [flatten_columns]. by rewrite strip_all_chars.
Qed.

Lemma split_Forall (P : N → Prop) sep s :
  Forall P s → Forall (Forall P) (Str.split sep s).
Proof.
  induction 1 as [|c s Hc _ IH]; simpl; [by repeat constructor|].
  destruct (c =? sep)%N; [by constructor|].
  destruct IH as [|seg rest Hseg Hrest]; by repeat constructor.
Qed.


(** C3: the flattener returns exactly the segments between middle dots,
    each stripped of '│', '|', space and newline at both ends, that are not
    empty after stripping, in order.  The example line of the specification
    gives its three columns; a line without a middle dot gives the stripped
    line or nothing; a line of separator characters gives nothing. *)
Theorem flatten_line_contract (line : pystr) :
  (∀ out, flatten_spec line out ↔ out = flatten_line line) ∧
  (MIDDLE_DOT ∉ line →
     (length (flatten_line line) ≤ 1)%nat ∧
     flatten_line line =
       if truthy (Str.strip STRIP_CHARS line)
       then [Str.strip STRIP_CHARS line] else []) ∧
  (Forall (fun c => c = MIDDLE_DOT ∨ c ∈ STRIP_CHARS) line →
     flatten_line line = []) ∧
  flatten_line (u "│ Foo · bar · 123 │") = [u "Foo"; u "bar"; u "123"].
Proof.
  repeat split.
  - apply flatten_spec_unique.
  - intros ->. apply flatten_line_meets_spec.
  - unfold flatten_line. rewrite split_without_sep by done.
    cbn [flatten_columns]. destruct (truthy _); simpl; lia.
  - unfold flatten_line. by rewrite split_without_sep.
  - intros Hall. apply flatten_columns_all_chars.
    assert (Forall (Forall (fun c => c = MIDDLE_DOT ∨ c ∈ STRIP_CHARS))
              (Str.split MIDDLE_DOT line)) as Hsegs by by apply split_Forall.
    destruct (split_segments MIDDLE_DOT line) as (_ & Hno & _).
    rewrite Forall_forall in Hsegs. rewrite Forall_forall in Hno.
    apply Forall_forall. intros seg Hin. apply Forall_forall. intros c Hc.
    specialize (Hsegs seg Hin). rewrite Forall_forall in Hsegs.
    destruct (Hsegs c Hc) as [->|?]; [|done]. by destruct (Hno seg Hin).
Qed.

Lemma flatten_line_contract_witness :
  flatten_line (u "│  Methods  │") = [u "Methods"] ∧
  flatten_line (u "··|·· │·") = [].
Proof.
  split.
  - apply (proj1 (proj2 (flatten_line_contract (u "│  Methods  │")))).
    vm_compute. intros H. by repeat (apply elem_of_cons in H as [H|H]; [done|]);
      apply elem_of_nil in H.
  - apply (proj1 (proj2 (proj2 (flatten_line_contract (u "··|·· │·"))))).
    vm_compute. repeat constructor; (by left) || right; set_solver.
Defined.

(** ** The report parser *)

Lemma bind_ret_inv {A B} (m : result A) (f : A → result B) b :
  bind m f = ret b → ∃ a, m = ret a ∧ f a = ret b.
Proof. destruct m as [e|a]; [done|]. intros H. by exists a. Qed.

(** Lists of seven and of six elements, by their length. *)
Lemma length_7_inv {A} (l : list A) :
  length l = 7%nat → ∃ a b c d e f g, l = [a; b; c; d; e; f; g].
Proof.
  do 8 (destruct l as [|? l]; [try done|]); [|done].
  intros _. by do 7 eexists.
Qed.

Lemma length_6_inv {A} (l : list A) :
  length l = 6%nat → ∃ a b c d e f, l = [a; b; c; d; e; f].
Proof.
  do 7 (destruct l as [|? l]; [try done|]); [|done].
  intros _. by do 6 eexists.
Qed.

(** The methods branch on a line without the marker. *)
Lemma dispatch_methods (l : Parser.locals) (line : pystr) :
  Parser.state l = METHODS →
  Str.contains (u "Deployments") line = false →
  Parser.dispatch l line =
    match flatten_line line with
    | [contract; method; _; _; _; _; _] =>
        ret (Parser.set_methods
               (<[contract ++ u "." ++ method :=
                    dict (zip METHOD_COLUMNS (flatten_line line))]>
                  (Parser.methods l)) l)
    | _ => ret l
    end.
Proof.
  intros Hst Hno. unfold Parser.dispatch. rewrite Hst, Hno.
  destruct (flatten_line line) as [|a data]; [done|].
  do 7 (destruct data as [|? data]; [done|]). done.
Qed.

(** The deployments branch, on any line. *)
Lemma dispatch_deployments (l : Parser.locals) (line : pystr) :
  Parser.state l = DEPLOYMENTS →
  Parser.dispatch l line =
    match flatten_line line with
    | [contract; _; _; _; _; _] =>
        ret (Parser.set_deployments
               (<[contract :=
                    dict (zip DEPLOYMENT_COLUMNS (flatten_line line))]>
                  (Parser.deployments l)) l)
    | _ => ret l
    end.
Proof.
  intros Hst. unfold Parser.dispatch. rewrite Hst.
  destruct (flatten_line line) as [|a data]; [done|].
  do 6 (destruct data as [|? data]; [done|]). done.
Qed.

(** No line makes the loop body raise. *)
Lemma dispatch_total (l : Parser.locals) (line : pystr) :
  ∃ l', Parser.dispatch l line = ret l' ∧
        (Parser.state l' = Parser.state l) ∧
        (Parser.next_state l' = Parser.next_state l ∨
         (Parser.state l = HEADER ∧ Parser.next_state l' = METHODS) ∨
         (Parser.state l = METHODS ∧ Parser.next_state l' = DEPLOYMENTS)).
Proof.
  destruct (Parser.state l) eqn:Hst.
  - unfold Parser.dispatch. rewrite Hst.
    destruct (Str.contains _ line); eexists; (split; [reflexivity|]); simpl; auto.
  - destruct (Str.contains (u "Deployments") line) eqn:Hc.
    + unfold Parser.dispatch. rewrite Hst, Hc.
      eexists; (split; [reflexivity|]); simpl; auto.
    + rewrite dispatch_methods by done.
      destruct (flatten_line line) as [|a data]; [by eauto|].
      do 7 (destruct data as [|? data]; [by eauto|]). by eauto.
  - rewrite dispatch_deployments by done.
    destruct (flatten_line line) as [|a data]; [by eauto|].
    do 6 (destruct data as [|? data]; [by eauto|]). by eauto.
Qed.

Lemma body_total (l : Parser.locals) (line : pystr) :
  ∃ l', Parser.body l line = ret l'.
Proof.
  destruct (dispatch_total l line) as (l' & H & _).
  unfold Parser.body. rewrite H. by eexists.
Qed.

Lemma body_sync (l l' : Parser.locals) (line : pystr) :
  Parser.body l line = ret l' → Parser.state l' = Parser.next_state l'.
Proof.
  unfold Parser.body. intros (l1 & _ & H)%bind_ret_inv.
  by injection H as <-.
Qed.

Lemma loop_snoc (l : Parser.locals) (lines : list pystr) (line : pystr) :
  Parser.loop l (lines ++ [line]) =
  bind (Parser.loop l lines) (fun l' => Parser.body l' line).
Proof.
  revert l. induction lines as [|x lines IH]; intros l; simpl.
  - by destruct (Parser.body l line).
  - destruct (Parser.body l x) as [e|l1]; [done|]. apply IH.
Qed.

Lemma loop_total (l : Parser.locals) (lines : list pystr) :
  ∃ l', Parser.loop l lines = ret l'.
Proof.
  revert l. induction lines as [|x lines IH]; intros l; simpl; [by eexists|].
  destruct (body_total l x) as (l1 & ->). apply IH.
Qed.

(** Between iterations [state] and [next_state] agree. *)
Lemma reachable_sync (l : Parser.locals) :
  reachable l → Parser.state l = Parser.next_state l.
Proof.
  intros (lines & H). destruct lines as [|x lines _] using rev_ind.
  - by injection H as <-.
  - rewrite loop_snoc in H. apply bind_ret_inv in H as (l1 & _ & H).
    by apply body_sync in H.
Qed.

Lemma reachable_body (l l' : Parser.locals) (line : pystr) :
  reachable l → Parser.body l line = ret l' → reachable l'.
Proof.
  intros (lines & H) Hb. exists (lines ++ [line]).
  by rewrite loop_snoc, H.
Qed.

(** [dict(zip(columns, data))] gives each column name the value at its
    position. *)
Lemma dict_insert_other {V} (pairs : list (pystr * V)) (acc : gmap pystr V)
    (key : pystr) :
  key ∉ pairs.*1 →
  foldl (fun d kv => <[kv.1 := kv.2]> d) acc pairs !! key = acc !! key.
Proof.
  revert acc. induction pairs as [|[k v] pairs IH]; intros acc Hn; [done|].
  simpl in *. rewrite IH by (intros ?; apply Hn; by right).
  apply lookup_insert_ne. intros ->. apply Hn. by left.
Qed.

Lemma elem_of_zip_fst {A B} (xs : list A) (ys : list B) (x : A) :
  x ∈ (zip xs ys).*1 → x ∈ xs.
Proof.
  revert ys. induction xs as [|a xs IH]; intros [|b ys]; simpl;
    try by intros ?%elem_of_nil.
  intros [->|?]%elem_of_cons; [by left | right; by eapply IH].
Qed.

Lemma dict_zip_lookup (columns data : list pystr) (i : nat) (col v : pystr) :
  NoDup columns → columns !! i = Some col → data !! i = Some v →
  dict (zip columns data) !! col = Some v.
Proof.
  unfold dict. generalize (∅ : gmap pystr pystr).
  revert data i. induction columns as [|c columns IH];
    intros data i acc Hnd Hc Hv; [done|].
  destruct data as [|d data]; [done|]. apply NoDup_cons in Hnd as [Hc' Hnd].
  destruct i as [|i]; simpl in *.
  - injection Hc as ->. injection Hv as ->.
    rewrite dict_insert_other; [apply lookup_insert_eq|].
    intros Hin. by apply elem_of_zip_fst in Hin.
  - by eapply IH.
Qed.

(** One iteration in METHODS, on a line without the marker. *)
Lemma body_in_methods (l : Parser.locals) (line : pystr) :
  Parser.state l = METHODS →
  Str.contains (u "Deployments") line = false →
  ∃ l', Parser.body l line = ret l' ∧
    Parser.state l' = Parser.next_state l ∧
    Parser.deployments l' = Parser.deployments l ∧
    (length (flatten_line line) = 7%nat →
     ∃ contract method rest, flatten_line line = contract :: method :: rest ∧
       Parser.methods l' =
         <[contract ++ u "." ++ method :=
             dict (zip METHOD_COLUMNS (flatten_line line))]>
           (Parser.methods l)) ∧
    (length (flatten_line line) ≠ 7%nat → Parser.methods l' = Parser.methods l).
Proof.
  intros Hst Hno. unfold Parser.body.
  rewrite dispatch_methods by done.
  destruct (decide (length (flatten_line line) = 7%nat)) as [Hlen|Hlen].
  - destruct (length_7_inv _ Hlen) as (a & b & c & d & e & f & g & ->).
    eexists. split; [reflexivity|]. do 2 (split; [done|]). split; [|done].
    intros _. by exists a, b, [c; d; e; f; g].
  - exists (Parser.set_state (Parser.next_state l) l).
    destruct (flatten_line line) as [|a data]; [by repeat split|].
    do 7 (destruct data as [|? data]; [by repeat split|]). by repeat split.
Qed.

(** One iteration in DEPLOYMENTS, on any line. *)
Lemma body_in_deployments (l : Parser.locals) (line : pystr) :
  Parser.state l = DEPLOYMENTS →
  ∃ l', Parser.body l line = ret l' ∧
    Parser.state l' = Parser.next_state l ∧
    Parser.methods l' = Parser.methods l ∧
    (length (flatten_line line) = 6%nat →
     ∃ contract rest, flatten_line line = contract :: rest ∧
       Parser.deployments l' =
         <[contract := dict (zip DEPLOYMENT_COLUMNS (flatten_line line))]>
           (Parser.deployments l)) ∧
    (length (flatten_line line) ≠ 6%nat →
     Parser.deployments l' = Parser.deployments l).
Proof.
  intros Hst. unfold Parser.body.
  rewrite dispatch_deployments by done.
  destruct (decide (length (flatten_line line) = 6%nat)) as [Hlen|Hlen].
  - destruct (length_6_inv _ Hlen) as (a & b & c & d & e & f & ->).
    eexists. split; [reflexivity|]. do 2 (split; [done|]). split; [|done].
    intros _. by exists a, [b; c; d; e; f].
  - exists (Parser.set_state (Parser.next_state l) l).
    destruct (flatten_line line) as [|a data]; [by repeat split|].
    do 6 (destruct data as [|? data]; [by repeat split|]). by repeat split.
Qed.

(** C2: in METHODS, on a line without the marker, a record is stored exactly
    when the line flattens to 7 values, under the first value, a dot and the
    second value, replacing what was there; in DEPLOYMENTS, exactly when it
    flattens to 6 values, under the first value.  Any other count leaves
    both mappings as they were. *)
Theorem record_iff_column_count (l : Parser.locals) (line : pystr) :
  let data := flatten_line line in
  (Parser.state l = METHODS →
   Str.contains (u "Deployments") line = false →
   ∃ l', Parser.body l line = ret l' ∧
     Parser.deployments l' = Parser.deployments l ∧
     (length data = 7%nat →
      ∃ contract method rest, data = contract :: method :: rest ∧
        Parser.methods l' =
          <[contract ++ u "." ++ method := dict (zip METHOD_COLUMNS data)]>
            (Parser.methods l)) ∧
     (length data ≠ 7%nat → Parser.methods l' = Parser.methods l)) ∧
  (Parser.state l = DEPLOYMENTS →
   ∃ l', Parser.body l line = ret l' ∧
     Parser.methods l' = Parser.methods l ∧
     (length data = 6%nat →
      ∃ contract rest, data = contract :: rest ∧
        Parser.deployments l' =
          <[contract := dict (zip DEPLOYMENT_COLUMNS data)]>
            (Parser.deployments l)) ∧
     (length data ≠ 6%nat → Parser.deployments l' = Parser.deployments l)).
Proof.
  intros data. split.
  - intros Hst Hno.
    destruct (body_in_methods l line Hst Hno) as (l' & Hb & _ & Hrest).
    by exists l'.
  - intros Hst.
    destruct (body_in_deployments l line Hst) as (l' & Hb & _ & Hrest).
    by exists l'.
Qed.

Lemma record_iff_column_count_witness :
  Parser.state (Parser.Locals ∅ ∅ METHODS METHODS) = METHODS ∧
  Str.contains (u "Deployments") sample_method_line = false ∧
  ∃ l', Parser.body (Parser.Locals ∅ ∅ METHODS METHODS) sample_method_line
        = ret l' ∧
    Parser.methods l' !! u "Greeter.setGreeting" =
      Some (dict (zip METHOD_COLUMNS (flatten_line sample_method_line))).
Proof.
  split; [reflexivity|]. split; [reflexivity|].
  destruct (proj1 (record_iff_column_count
                     (Parser.Locals ∅ ∅ METHODS METHODS) sample_method_line)
              eq_refl eq_refl) as (l' & Hb & _ & H7 & _).
  exists l'. split; [exact Hb|].
  destruct (H7 eq_refl) as (c & m & rest & Hdata & ->).
  injection Hdata as <- <- _. apply lookup_insert_eq.
Defined.

(** Once in DEPLOYMENTS, always in DEPLOYMENTS. *)
Lemma deployments_absorbing (l : Parser.locals) (lines : list pystr) :
  Parser.state l = DEPLOYMENTS → Parser.next_state l = DEPLOYMENTS →
  ∃ l', Parser.loop l lines = ret l' ∧ Parser.state l' = DEPLOYMENTS ∧
        Parser.next_state l' = DEPLOYMENTS.
Proof.
  revert l. induction lines as [|x lines IH]; intros l Hst Hnx; [by exists l|].
  destruct (dispatch_total l x) as (l1 & Hd & Hs & Hn).
  simpl. unfold Parser.body. rewrite Hd. simpl. apply IH; simpl;
    destruct Hn as [Hn|[[? _]|[? _]]]; congruence.
Qed.

(** C4: a line with "Contract" read in HEADER, or with "Deployments" read in
    METHODS, moves the parser to the next state for the following line and
    stores nothing, whatever it flattens to; every iteration keeps the state
    or moves it one step along HEADER, METHODS, DEPLOYMENTS; from
    DEPLOYMENTS no sequence of lines leads anywhere else. *)
Theorem transition_line_not_parsed (l : Parser.locals) (line : pystr) :
  reachable l →
  (Parser.state l = HEADER → Str.contains (u "Contract") line = true →
   Parser.body l line =
     ret (Parser.Locals (Parser.methods l) (Parser.deployments l)
            METHODS METHODS)) ∧
  (Parser.state l = METHODS → Str.contains (u "Deployments") line = true →
   Parser.body l line =
     ret (Parser.Locals (Parser.methods l) (Parser.deployments l)
            DEPLOYMENTS DEPLOYMENTS)) ∧
  (∃ l', Parser.body l line = ret l' ∧
     (Parser.state l' = Parser.state l ∨
      (Parser.state l = HEADER ∧ Parser.state l' = METHODS) ∨
      (Parser.state l = METHODS ∧ Parser.state l' = DEPLOYMENTS))) ∧
  (Parser.state l = DEPLOYMENTS →
   ∀ lines, ∃ l', Parser.loop l lines = ret l' ∧
                  Parser.state l' = DEPLOYMENTS).
Proof.
  intros Hr. pose proof (reachable_sync l Hr) as Hsync.
  split; [|split; [|split]].
  - intros Hst Hc. unfold Parser.body, Parser.dispatch. by rewrite Hst, Hc.
  - intros Hst Hc. unfold Parser.body, Parser.dispatch. by rewrite Hst, Hc.
  - destruct (dispatch_total l line) as (l1 & Hd & Hs & Hn).
    exists (Parser.set_state (Parser.next_state l1) l1).
    unfold Parser.body. rewrite Hd. split; [done|]. simpl.
    destruct Hn as [Hn|[[? Hn]|[? Hn]]]; rewrite Hn; auto.
  - intros Hst lines.
    destruct (deployments_absorbing l lines Hst) as (l' & Hl & Hs & _);
      [congruence|]. by exists l'.
Qed.

Lemma transition_line_not_parsed_witness :
  reachable Parser.init ∧
  Parser.state Parser.init = HEADER ∧
  Str.contains (u "Contract") sample_columns_line = true ∧
  length (flatten_line sample_columns_line) = 7%nat ∧
  Parser.body Parser.init sample_columns_line =
    ret (Parser.Locals ∅ ∅ METHODS METHODS).
Proof.
  assert (reachable Parser.init) as Hr by (by exists []).
  repeat (split; [done|]).
  exact (proj1 (transition_line_not_parsed Parser.init sample_columns_line Hr)
           eq_refl eq_refl).
Defined.

Example marker_line_with_7_columns_skipped :
  length (flatten_line marker_with_7_columns) = 7%nat ∧
  Parser.body (Parser.Locals ∅ ∅ METHODS METHODS) marker_with_7_columns =
    ret (Parser.Locals ∅ ∅ DEPLOYMENTS DEPLOYMENTS).
Proof. split; reflexivity. Qed.

(** A file without the first marker never leaves HEADER and stores
    nothing. *)
Lemma loop_header_only (lines : list pystr) :
  Forall (fun line => Str.contains (u "Contract") line = false) lines →
  Parser.loop Parser.init lines = ret Parser.init.
Proof.
  induction 1 as [|line lines Hline _ IH]; [done|].
  simpl. unfold Parser.body at 1, Parser.dispatch. simpl. rewrite Hline.
  exact IH.
Qed.

(** C9: at end of file the parser returns the two mappings as the loop left
    them, in whichever state the loop ended; a file with no line holding
    "Contract" gives two empty mappings. *)
Theorem report_at_end_of_file (lines : list pystr) :
  (∃ l, Parser.loop Parser.init lines = ret l ∧
        new_report_dict_from_file lines =
          ret (Report (Parser.methods l) (Parser.deployments l))) ∧
  (Forall (fun line => Str.contains (u "Contract") line = false) lines →
   new_report_dict_from_file lines = ret (Report ∅ ∅)).
Proof.
  split.
  - destruct (loop_total Parser.init lines) as (l & Hl).
    exists l. split; [done|]. unfold new_report_dict_from_file. by rewrite Hl.
  - intros Hno. unfold new_report_dict_from_file.
    by rewrite loop_header_only.
Qed.

Lemma report_at_end_of_file_witness :
  Forall (fun line => Str.contains (u "Contract") line = false)
    [sample_method_line; sample_marker_line; sample_deployment_line] ∧
  new_report_dict_from_file
    [sample_method_line; sample_marker_line; sample_deployment_line] =
  ret (Report ∅ ∅).
Proof.
  assert (Forall (fun line => Str.contains (u "Contract") line = false)
            [sample_method_line; sample_marker_line; sample_deployment_line])
    as Hno by (repeat constructor).
  split; [exact Hno|].
  exact (proj2 (report_at_end_of_file _) Hno).
Defined.

(** The loop may end in any of the three states; the mappings built so far
    are returned all the same. *)
Example file_ending_in_each_state :
  (∃ l, Parser.loop Parser.init [sample_method_line] = ret l ∧
        Parser.state l = HEADER) ∧
  (∃ l, Parser.loop Parser.init [sample_columns_line; sample_method_line]
        = ret l ∧ Parser.state l = METHODS ∧
        new_report_dict_from_file [sample_columns_line; sample_method_line] =
          ret (Report
                 {[ u "Greeter.setGreeting" :=
                      dict (zip METHOD_COLUMNS
                              [u "Greeter"; u "setGreeting"; u "34658";
                               u "34670"; u "34664"; u "2"; u "-"]) ]}
                 ∅)) ∧
  (∃ l, Parser.loop Parser.init
          [sample_columns_line; sample_method_line; sample_marker_line;
           sample_deployment_line] = ret l ∧
        Parser.state l = DEPLOYMENTS ∧
        Parser.deployments l !! u "Greeter" =
          Some (dict (zip DEPLOYMENT_COLUMNS
                        [u "Greeter"; u "497026"; u "497038"; u "497032";
                         u "1.7 %"; u "-"]))).
Proof.
  split; [|split]; eexists; (split; [reflexivity|]).
  - reflexivity.
  - split; [reflexivity|]. vm_compute. reflexivity.
  - split; [reflexivity|]. vm_compute. reflexivity.
Qed.

(** C10: in DEPLOYMENTS no marker is looked for; every line is flattened
    and stored as a deployment record when it gives 6 values, also a line
    that holds "Contract" or "Deployments", and the state stays
    DEPLOYMENTS. *)
Theorem deployments_state_ignores_markers (l : Parser.locals) (line : pystr) :
  reachable l →
  Parser.state l = DEPLOYMENTS →
  let data := flatten_line line in
  (∃ l', Parser.body l line = ret l' ∧
     Parser.state l' = DEPLOYMENTS ∧
     Parser.methods l' = Parser.methods l ∧
     (length data = 6%nat →
      ∃ contract rest, data = contract :: rest ∧
        Parser.deployments l' =
          <[contract := dict (zip DEPLOYMENT_COLUMNS data)]>
            (Parser.deployments l)) ∧
     (length data ≠ 6%nat → Parser.deployments l' = Parser.deployments l)) ∧
  (Str.contains (u "Contract") marker_with_6_columns = true ∧
   Str.contains (u "Deployments") marker_with_6_columns = true ∧
   Parser.body l marker_with_6_columns =
     ret (Parser.Locals (Parser.methods l)
            (<[u "Deployments of Contract" :=
                 dict (zip DEPLOYMENT_COLUMNS
                         [u "Deployments of Contract"; u "1"; u "2"; u "3";
                          u "4"; u "5"])]> (Parser.deployments l))
            DEPLOYMENTS DEPLOYMENTS)).
Proof.
  intros Hr Hst data. pose proof (reachable_sync l Hr) as Hsync. split.
  - destruct (body_in_deployments l line Hst) as (l' & Hb & Hs & Hrest).
    exists l'. split; [done|]. split; [congruence|done].
  - split; [reflexivity|]. split; [reflexivity|].
    unfold Parser.body. rewrite dispatch_deployments by done.
    change (flatten_line marker_with_6_columns)
      with [u "Deployments of Contract"; u "1"; u "2"; u "3"; u "4"; u "5"].
    simpl. unfold Parser.set_state. simpl. by rewrite <- Hsync, Hst.
Qed.

Lemma deployments_state_ignores_markers_witness :
  reachable (Parser.Locals ∅ ∅ DEPLOYMENTS DEPLOYMENTS) ∧
  ∃ l', Parser.body (Parser.Locals ∅ ∅ DEPLOYMENTS DEPLOYMENTS)
          sample_deployment_line = ret l' ∧
        Parser.state l' = DEPLOYMENTS.
Proof.
  assert (reachable (Parser.Locals ∅ ∅ DEPLOYMENTS DEPLOYMENTS)) as Hr.
  { exists [sample_columns_line; sample_marker_line]. reflexivity. }
  split; [exact Hr|].
  destruct (proj1 (deployments_state_ignores_markers _ sample_deployment_line
                     Hr eq_refl)) as (l' & Hb & Hs & _).
  exists l'. split; [exact Hb | exact Hs].
Defined.

(** ** The order of the rows *)

Lemma str_lt_irrefl (a : pystr) : str_lt a a = false.
Proof.
  induction a as [|x a IH]; [done|]. simpl.
  by rewrite N.ltb_irrefl, N.eqb_refl, IH.
Qed.

Lemma str_lt_trichotomy (a b : pystr) :
  str_lt a b = false → str_lt b a = false → a = b.
Proof.
  revert b. induction a as [|x a IH]; intros [|y b]; simpl; try done.
  intros [Hxy H1]%orb_false_elim [Hyx H2]%orb_false_elim.
  apply N.ltb_ge in Hxy, Hyx. assert (x = y) as -> by lia.
  rewrite N.eqb_refl in H1, H2. simpl in *. f_equal. by apply IH.
Qed.

Lemma str_lt_trans (a b c : pystr) :
  str_lt a b = true → str_lt b c = true → str_lt a c = true.
Proof.
  revert b c. induction a as [|x a IH]; intros [|y b] [|z c]; simpl; try done.
  intros [Hxy|[Hxy H1]%andb_prop]%orb_prop [Hyz|[Hyz H2]%andb_prop]%orb_prop;
    try apply N.ltb_lt in Hxy; try apply N.ltb_lt in Hyz;
    try apply N.eqb_eq in Hxy; try apply N.eqb_eq in Hyz; subst.
  - apply orb_true_intro. left. apply N.ltb_lt. lia.
  - apply orb_true_intro. left. by apply N.ltb_lt.
  - apply orb_true_intro. left. by apply N.ltb_lt.
  - apply orb_true_intro. right. rewrite N.eqb_refl. simpl. by eapply IH.
Qed.

Lemma str_le_alt (a b : pystr) : str_le a b ↔ str_lt a b = true ∨ a = b.
Proof.
  unfold str_le. split.
  - intros H. destruct (str_lt a b) eqn:E; [by left|].
    right. by apply str_lt_trichotomy.
  - intros [H| ->]; [|apply str_lt_irrefl].
    destruct (str_lt b a) eqn:E; [|done].
    pose proof (str_lt_trans _ _ _ H E) as Haa.
    by rewrite str_lt_irrefl in Haa.
Qed.

#[local] Instance str_le_trans : Transitive str_le.
Proof.
  intros a b c [Hab| ->]%str_le_alt [Hbc| ->]%str_le_alt; apply str_le_alt;
    eauto using str_lt_trans.
Qed.

#[local] Instance str_le_total : Total str_le.
Proof.
  intros a b. unfold str_le. destruct (str_lt b a) eqn:E; [right|by left].
  destruct (str_lt a b) eqn:E'; [|done].
  pose proof (str_lt_trans _ _ _ E E') as H. by rewrite str_lt_irrefl in H.
Qed.

#[local] Instance str_le_antisym : AntiSymm (=) str_le.
Proof. intros a b H1 H2. by apply str_lt_trichotomy. Qed.

Lemma sorted_strict (xs : list pystr) :
  NoDup xs → StronglySorted (fun a b => str_lt a b = true) (sorted xs).
Proof.
  intros Hnd. unfold sorted.
  assert (NoDup (merge_sort str_le xs)) as Hnd'
    by by rewrite merge_sort_Permutation.
  pose proof (StronglySorted_merge_sort str_le xs) as Hs.
  induction Hs as [|a l Hl IH Ha]; [constructor|].
  apply NoDup_cons in Hnd' as [Hnotin Hnd']. constructor; [by apply IH|].
  apply Forall_forall. intros b Hb. rewrite Forall_forall in Ha.
  destruct (proj1 (str_le_alt a b) (Ha b Hb)) as [?| ->]; done.
Qed.

Lemma strictly_sorted_le (l : list pystr) :
  StronglySorted (fun a b => str_lt a b = true) l →
  StronglySorted str_le l ∧ NoDup l.
Proof.
  induction 1 as [|a l Hl [IH1 IH2] Ha]; [split; constructor|].
  split.
  - constructor; [done|]. eapply Forall_impl; [exact Ha|].
    intros b Hb. apply str_le_alt. by left.
  - constructor; [|done]. intros Hin. rewrite Forall_forall in Ha.
    specialize (Ha a Hin). by rewrite str_lt_irrefl in Ha.
Qed.

Lemma elem_of_dicts_union {V} (d1 d2 : gmap pystr V) (k : pystr) :
  k ∈ dicts_union d1 d2 ↔ is_Some (d1 !! k) ∨ is_Some (d2 !! k).
Proof.
  unfold dicts_union, sorted, keys.
  rewrite merge_sort_Permutation, elem_of_elements, elem_of_union.
  by rewrite !elem_of_dom.
Qed.

(** The loop over the keys, when no key raises: the outputs of the keys,
    one after the other in the order of the list. *)
Lemma for_each_concat {A} (xs : list A) (f : A → io unit) :
  Forall (fun y => (f y).2 = inr tt) xs →
  IO.for_each xs f = (concat ((fun y => (f y).1) <$> xs), inr tt).
Proof.
  induction 1 as [|y xs Hy _ IH]; [done|]. simpl.
  unfold IO.bind. destruct (f y) as [oy ry]. simpl in *. subst ry.
  by rewrite IH.
Qed.

(** The same loop when a key raises after keys that did not. *)
Lemma for_each_stops {A} (pre post : list A) (x : A) (f : A → io unit)
    (o : list pystr) (e : exn) :
  Forall (fun y => (f y).2 = inr tt) pre →
  f x = (o, inl e) →
  IO.for_each (pre ++ x :: post) f =
    (concat ((fun y => (f y).1) <$> pre) ++ o, inl e).
Proof.
  intros Hpre Hx. induction Hpre as [|y pre Hy _ IH]; simpl.
  - unfold IO.bind. by rewrite Hx.
  - unfold IO.bind. destruct (f y) as [oy ry]. simpl in *. subst ry.
    rewrite IH. by rewrite app_assoc.
Qed.

(** C8: the rows of a section follow the union of the keys of the two
    mappings in strictly increasing code point order, each key once; that
    list is the only one with these properties, so it does not depend on
    which mapping a key comes from, and swapping the mappings gives the same
    list.  What is printed is what each key prints, one key after the
    other in that order, up to the first key that raises. *)
Theorem rows_in_sorted_union (before after : report)
    (datakey : report → gmap pystr (gmap pystr pystr)) (args : Args) :
  let all_keys := dicts_union (datakey before) (datakey after) in
  print_subdict_in_markdown_table before after datakey args =
    IO.for_each all_keys
      (fun key => print_table_line (datakey before) (datakey after) key args) ∧
  (∀ key, key ∈ all_keys ↔
          is_Some (datakey before !! key) ∨ is_Some (datakey after !! key)) ∧
  StronglySorted (fun a b => str_lt a b = true) all_keys ∧
  NoDup all_keys ∧
  (∀ a b, str_lt a b = true ∨ a = b ∨ str_lt b a = true) ∧
  (∀ l, StronglySorted (fun a b => str_lt a b = true) l →
        (∀ key, key ∈ l ↔ is_Some (datakey before !! key) ∨
                           is_Some (datakey after !! key)) →
        l = all_keys) ∧
  dicts_union (datakey after) (datakey before) = all_keys ∧
  (Forall (fun key =>
             (print_table_line (datakey before) (datakey after) key args).2
             = inr tt) all_keys →
   print_subdict_in_markdown_table before after datakey args =
     (concat ((fun key =>
                 (print_table_line (datakey before) (datakey after)
                    key args).1) <$> all_keys), inr tt)) ∧
  (∀ pre key post o e,
     all_keys = pre ++ key :: post →
     Forall (fun k =>
               (print_table_line (datakey before) (datakey after) k args).2
               = inr tt) pre →
     print_table_line (datakey before) (datakey after) key args
       = (o, inl e) →
     print_subdict_in_markdown_table before after datakey args =
       (concat ((fun k =>
                   (print_table_line (datakey before) (datakey after)
                      k args).1) <$> pre) ++ o, inl e)).
Proof.
  intros all_keys.
  assert (StronglySorted (fun a b => str_lt a b = true) all_keys) as Hs
    by apply sorted_strict, NoDup_elements.
  assert (∀ l, StronglySorted (fun a b => str_lt a b = true) l →
            (∀ key, key ∈ l ↔ is_Some (datakey before !! key) ∨
                               is_Some (datakey after !! key)) →
            l = all_keys) as Huniq.
  { intros l Hl Hmem.
    destruct (strictly_sorted_le l Hl) as [Hle Hnd].
    destruct (strictly_sorted_le all_keys Hs) as [Hle' Hnd'].
    apply (StronglySorted_unique str_le); [done|done|].
    apply NoDup_Permutation; [done|done|].
    intros k. rewrite Hmem. unfold all_keys.
    by rewrite elem_of_dicts_union. }
  split; [done|]. split; [apply elem_of_dicts_union|].
  split; [done|]. split; [by apply strictly_sorted_le|]. split.
  - intros a b. destruct (str_lt a b) eqn:E1; [by left|].
    destruct (str_lt b a) eqn:E2; [by right; right|].
    right; left. by apply str_lt_trichotomy.
  - split; [exact Huniq|]. split; [|split].
    + apply Huniq.
      * apply sorted_strict, NoDup_elements.
      * intros k. rewrite elem_of_dicts_union. tauto.
    + intros Hall. unfold print_subdict_in_markdown_table.
      by apply for_each_concat.
    + intros pre key post o e Hkeys Hpre Hkey.
      unfold print_subdict_in_markdown_table. fold all_keys.
      rewrite Hkeys. by apply for_each_stops.
Qed.

Lemma rows_in_sorted_union_witness :
  StronglySorted (fun a b => str_lt a b = true) [u "A.g"; u "B.f"] ∧
  [u "A.g"; u "B.f"] =
    dicts_union (methods (report_with_avg (u "B.f") (u "1")))
                (methods (report_with_avg (u "A.g") (u "2"))) ∧
  print_subdict_in_markdown_table (report_with_avg (u "B.f") (u "1"))
    (report_with_avg (u "A.g") (u "2")) methods
    {| keep_zeros := false; both := false |} =
  ([u "| `A.g` | - | 2 | - | - |"; u "| `B.f` | 1 | - | - | - |"], inr tt).
Proof.
  assert (StronglySorted (fun a b => str_lt a b = true) [u "A.g"; u "B.f"])
    as Hs by (repeat constructor).
  pose proof (rows_in_sorted_union (report_with_avg (u "B.f") (u "1"))
                (report_with_avg (u "A.g") (u "2")) methods
                {| keep_zeros := false; both := false |})
    as (_ & _ & _ & _ & _ & Huniq & _ & Hrows & _).
  assert ([u "A.g"; u "B.f"] =
          dicts_union (methods (report_with_avg (u "B.f") (u "1")))
            (methods (report_with_avg (u "A.g") (u "2")))) as Hkeys.
  { apply Huniq; [exact Hs|].
    intros key. simpl. rewrite <- !elem_of_dom, !dom_singleton_L.
    rewrite !elem_of_singleton, elem_of_cons, elem_of_cons, elem_of_nil.
    tauto. }
  split; [exact Hs|]. split; [exact Hkeys|].
  rewrite Hrows.
  - rewrite <- Hkeys. vm_compute. reflexivity.
  - rewrite <- Hkeys. repeat constructor.
Defined.

(** ** The rows of the table *)

Lemma has_key_Some {V} (d : gmap pystr V) (key : pystr) (v : V) :
  d !! key = Some v → has_key d key = true.
Proof. intros H. unfold has_key. rewrite H. by apply bool_decide_eq_true. Qed.

Lemma has_key_None {V} (d : gmap pystr V) (key : pystr) :
  d !! key = None → has_key d key = false.
Proof.
  intros H. unfold has_key. rewrite H. apply bool_decide_eq_false.
  by intros [? ?].
Qed.

Lemma avg_of_Some (d : gmap pystr (gmap pystr pystr)) (key avg : pystr)
    (r : gmap pystr pystr) :
  d !! key = Some r → r !! u "avg" = Some avg → avg_of d key = ret avg.
Proof. intros H1 H2. unfold avg_of, getitem. rewrite H1. simpl. by rewrite H2. Qed.

Lemma print_list_text (lst : list pystr) :
  print_list_in_markdown_table lst = ([table_line lst], inr tt).
Proof. reflexivity. Qed.

(** A key with a record on both sides: the row is skipped, or computed and
    printed, or the computation raises. *)
Lemma print_table_line_both (before after : gmap pystr (gmap pystr pystr))
    (key b a : pystr) (rb ra : gmap pystr pystr) (args : Args) :
  before !! key = Some rb → rb !! u "avg" = Some b →
  after !! key = Some ra → ra !! u "avg" = Some a →
  print_table_line before after key args =
    if negb (keep_zeros args) && bool_decide (b = a) then ([], inr tt)
    else match calculate_line b a with
         | inr cells => ([table_line ((u "`" ++ key ++ u "`") :: cells)], inr tt)
         | inl e => ([], inl e)
         end.
Proof.
  intros Hb Hrb Ha Hra. unfold print_table_line.
  rewrite (has_key_Some _ _ _ Hb), (has_key_Some _ _ _ Ha).
  rewrite (avg_of_Some _ _ _ _ Hb Hrb), (avg_of_Some _ _ _ _ Ha Hra).
  cbn [andb IO.lift IO.bind ret app].
  destruct (negb (keep_zeros args) && bool_decide (b = a)); [done|].
  cbn [negb]. by destruct (calculate_line b a).
Qed.

(** C1: with avg "100" before and "150" after under the key "A.foo", and
    neither option set, the row printed for the key is
    "| `A.foo` | 100 | 150 | +50 | +50.00% |", and it is the only body row
    when the reports hold nothing else. *)
Theorem row_for_100_to_150 (before after : gmap pystr (gmap pystr pystr))
    (rb ra : gmap pystr pystr) :
  before !! u "A.foo" = Some rb → rb !! u "avg" = Some (u "100") →
  after !! u "A.foo" = Some ra → ra !! u "avg" = Some (u "150") →
  print_table_line before after (u "A.foo")
    {| keep_zeros := false; both := false |} =
    ([u "| `A.foo` | 100 | 150 | +50 | +50.00% |"], inr tt) ∧
  format_markdown (report_with_avg (u "A.foo") (u "100"))
    (report_with_avg (u "A.foo") (u "150"))
    {| keep_zeros := false; both := false |} =
    ([table_line MARKDOWN_TABLE_COLUMNS; table_line MARKDOWN_TABLE_ALIGNMENTS;
      u "| `A.foo` | 100 | 150 | +50 | +50.00% |"], inr tt).
Proof.
  intros Hb Hrb Ha Hra. split.
  - rewrite (print_table_line_both _ _ _ _ _ _ _ _ Hb Hrb Ha Hra).
    reflexivity.
  - vm_compute. reflexivity.
Qed.

Lemma row_for_100_to_150_witness :
  print_table_line (methods (report_with_avg (u "A.foo") (u "100")))
    (methods (report_with_avg (u "A.foo") (u "150"))) (u "A.foo")
    {| keep_zeros := false; both := false |} =
  ([u "| `A.foo` | 100 | 150 | +50 | +50.00% |"], inr tt).
Proof.
  apply (row_for_100_to_150 _ _ {[ u "avg" := u "100" ]}
           {[ u "avg" := u "150" ]}); reflexivity.
Defined.

(** Equalities between texts built from literals and variables: evaluate the
    literals, reassociate, compare. *)
Ltac eval_literals :=
  repeat match goal with
         | |- context [u ?s] =>
             let v := eval vm_compute in (u s) in change (u s) with v
         end.

Ltac text_eq :=
  unfold table_line; cbn [Str.join]; eval_literals;
  repeat (rewrite <- app_assoc; cbn [app]); cbn [app]; reflexivity.

(** C6: a key with a record on one side only gets, when [both] is off, a
    row with the key, its avg in the Before or in the After column and "-"
    in the three other columns; when [both] is on it gets no row. *)
Theorem one_sided_row (before after : gmap pystr (gmap pystr pystr))
    (key : pystr) (r : gmap pystr pystr) (args : Args) :
  (before !! key = Some r → after !! key = None →
   (both args = true →
    print_table_line before after key args = ([], inr tt)) ∧
   (both args = false → ∀ avg, r !! u "avg" = Some avg →
    print_table_line before after key args =
      ([u "| `" ++ key ++ u "` | " ++ avg ++ u " | - | - | - |"], inr tt))) ∧
  (before !! key = None → after !! key = Some r →
   (both args = true →
    print_table_line before after key args = ([], inr tt)) ∧
   (both args = false → ∀ avg, r !! u "avg" = Some avg →
    print_table_line before after key args =
      ([u "| `" ++ key ++ u "` | - | " ++ avg ++ u " | - | - |"], inr tt))).
Proof.
  split; intros Hb Ha; (split; [intros Hboth | intros Hboth avg Havg]);
    unfold print_table_line;
    rewrite ?(has_key_Some _ _ _ Hb), ?(has_key_Some _ _ _ Ha),
            ?(has_key_None _ _ Hb), ?(has_key_None _ _ Ha), Hboth;
    try reflexivity.
  - rewrite (avg_of_Some _ _ _ _ Hb Havg). cbn [andb negb IO.lift IO.bind ret].
    rewrite print_list_text. do 2 f_equal. text_eq.
  - rewrite (avg_of_Some _ _ _ _ Ha Havg). cbn [andb negb IO.lift IO.bind ret].
    rewrite print_list_text. do 2 f_equal. text_eq.
Qed.

Lemma one_sided_row_witness :
  methods (report_with_avg (u "A.foo") (u "100")) !! u "A.foo" =
    Some {[ u "avg" := u "100" ]} ∧
  (∅ : gmap pystr (gmap pystr pystr)) !! u "A.foo" = None ∧
  print_table_line (methods (report_with_avg (u "A.foo") (u "100"))) ∅
    (u "A.foo") {| keep_zeros := false; both := false |} =
  ([u "| `A.foo` | 100 | - | - | - |"], inr tt).
Proof.
  split; [reflexivity|]. split; [reflexivity|].
  exact (proj2 (proj1 (one_sided_row
                         (methods (report_with_avg (u "A.foo") (u "100"))) ∅
                         (u "A.foo") {[ u "avg" := u "100" ]}
                         {| keep_zeros := false; both := false |})
                  eq_refl eq_refl) eq_refl (u "100") eq_refl).
Defined.

(** What [calculate_line] gives once the conversions and the division have
    given their results. *)
Lemma calculate_line_ok (b a : pystr) (bi ai : Z) (q : spec_float)
    (d : pystr) :
  Py.int b = ret bi → Py.int a = ret ai →
  Py.int_true_divide (ai - bi) bi = ret q →
  Py.format_plus_d (ai - bi) = ret d →
  calculate_line b a =
    ret [b; a; d; Py.format_plus_2f (Py.int_times_float 100 q) ++ u "%"].
Proof.
  intros Hb Ha Hq Hd. unfold calculate_line.
  by rewrite Hb, Ha; simpl; rewrite Hq; simpl; rewrite Hd.
Qed.

Lemma int_raises_ValueError (s : pystr) (e : exn) :
  Py.int s = raise e → e = ValueError.
Proof.
  unfold Py.int.
  destruct (match Py.skip_space (Py.to_ascii s) with
            | [] => (false, Py.skip_space (Py.to_ascii s))
            | c :: s' =>
                if (c =? Py.PLUS)%N then (false, s')
                else if (c =? Py.MINUS)%N then (true, s')
                else (false, Py.skip_space (Py.to_ascii s))
            end) as [negative s2].
  destruct (Py.magnitude s2) as [[[v digits] rest]|]; [|by intros [= <-]].
  destruct (Py.too_many_digits digits digits); [by intros [= <-]|].
  destruct (Py.skip_space rest); [done|by intros [= <-]].
Qed.

Lemma format_raises_ValueError (n : Z) (e : exn) :
  Py.format_plus_d n = raise e → e = ValueError.
Proof.
  unfold Py.format_plus_d. destruct (Py.too_many_digits _ _); [|done].
  by intros [= <-].
Qed.

Lemma calculate_line_zero_before (a : pystr) :
  calculate_line (u "0") a =
    raise (match Py.int a with inr _ => ZeroDivisionError | inl e => e end).
Proof.
  unfold calculate_line. change (Py.int (u "0")) with (ret 0). simpl.
  by destruct (Py.int a) as [e|ai].
Qed.

(** An exception raised for one key ends the loop over the keys, and the
    formatter, with an exception. *)
Lemma for_each_raises {A} (xs : list A) (f : A → io unit) (x : A) :
  x ∈ xs → (∃ out e, f x = (out, inl e)) →
  ∃ out e, IO.for_each xs f = (out, inl e).
Proof.
  intros Hin Hx. induction xs as [|y xs IH]; [by apply elem_of_nil in Hin|].
  simpl. unfold IO.bind. destruct (f y) as [o [e|[]]] eqn:Hy; [by eauto|].
  apply elem_of_cons in Hin as [->|Hin].
  - destruct Hx as (? & ? & Hx). congruence.
  - destruct (IH Hin) as (o' & e' & ->). by eauto.
Qed.

Lemma format_markdown_raises (before after : report) (args : Args)
    (datakey : report → gmap pystr (gmap pystr pystr)) :
  datakey = methods ∨ datakey = deployments →
  (∃ out e, print_subdict_in_markdown_table before after datakey args
            = (out, inl e)) →
  ∃ out e, format_markdown before after args = (out, inl e).
Proof.
  intros Hk (o & e & Hraise). unfold format_markdown.
  rewrite !print_list_text. unfold IO.bind at 1 2.
  destruct (print_subdict_in_markdown_table before after methods args)
    as [o1 [e1|[]]] eqn:H1; simpl; [by eauto|].
  destruct (print_subdict_in_markdown_table before after deployments args)
    as [o2 [e2|[]]] eqn:H2; simpl; [by eauto|].
  destruct Hk as [-> | ->]; congruence.
Qed.

(** Avg texts with white space or digits that are not ASCII are converted
    like any other: a no-break space before "100" gives a row, and an em
    space before "150" after a before avg of "0" gives a division by
    zero. *)
Example rows_with_unicode_space :
  print_table_line
    (methods (report_with_avg (u "A.foo") (0xA0%N :: u "100")))
    (methods (report_with_avg (u "A.foo") (u "150"))) (u "A.foo")
    {| keep_zeros := false; both := false |} =
  ([u "| `A.foo` | " ++ 0xA0%N :: u "100 | 150 | +50 | +50.00% |"], inr tt) ∧
  print_table_line
    (methods (report_with_avg (u "A.foo") (u "0")))
    (methods (report_with_avg (u "A.foo") (0x2003%N :: u "150"))) (u "A.foo")
    {| keep_zeros := false; both := false |} = ([], inl ZeroDivisionError).
Proof. split; vm_compute; reflexivity. Qed.

(** C5, as stated, fails: with avg "100" before and "100.0" after the key is
    not skipped, yet no row is printed, since the conversion of "100.0" to
    an integer raises; and with [keep_zeros] on, avg "0" on both sides gives
    a division by zero and no row. *)
Lemma changed_avg_without_row :
  print_table_line (methods (report_with_avg (u "A.foo") (u "100")))
    (methods (report_with_avg (u "A.foo") (u "100.0"))) (u "A.foo")
    {| keep_zeros := false; both := false |} = ([], inl ValueError) ∧
  print_table_line (methods (report_with_avg (u "A.foo") (u "0")))
    (methods (report_with_avg (u "A.foo") (u "0"))) (u "A.foo")
    {| keep_zeros := true; both := false |} = ([], inl ZeroDivisionError).
Proof. split; vm_compute; reflexivity. Qed.

(** C5, amended: for a key with a record on both sides, with [keep_zeros]
    off the row is skipped exactly when the two avg texts are the same
    string.  When the key is not skipped (the texts differ, or [keep_zeros]
    is on) the row is computed: it is printed when both texts convert to
    integers, the division gives a float and the difference can be written
    out (it is within the digit limit), and otherwise nothing is printed
    and the exception of the conversion, of the division or of the writing
    comes out. *)
Theorem skip_iff_same_avg_text (before after : gmap pystr (gmap pystr pystr))
    (key b a : pystr) (rb ra : gmap pystr pystr) (args : Args) :
  before !! key = Some rb → rb !! u "avg" = Some b →
  after !! key = Some ra → ra !! u "avg" = Some a →
  (keep_zeros args = false →
   (print_table_line before after key args = ([], inr tt) ↔ b = a)) ∧
  (keep_zeros args = true ∨ b ≠ a →
   (∀ bi ai q d,
      Py.int b = ret bi → Py.int a = ret ai →
      Py.int_true_divide (ai - bi) bi = ret q →
      Py.format_plus_d (ai - bi) = ret d →
      print_table_line before after key args =
        ([table_line [u "`" ++ key ++ u "`"; b; a; d;
                      Py.format_plus_2f (Py.int_times_float 100 q) ++ u "%"]],
         inr tt)) ∧
   (∀ e, calculate_line b a = raise e →
      print_table_line before after key args = ([], inl e)) ∧
   (Py.int b = raise ValueError ∨ Py.int a = raise ValueError ∨
    Py.int b = ret 0 →
    ∃ e, print_table_line before after key args = ([], inl e)) ∧
   ((∃ bi ai q d,
       Py.int b = ret bi ∧ Py.int a = ret ai ∧
       Py.int_true_divide (ai - bi) bi = ret q ∧
       Py.format_plus_d (ai - bi) = ret d) ∨
    (∃ e, print_table_line before after key args = ([], inl e)))).
Proof.
  intros Hb Hrb Ha Hra.
  rewrite (print_table_line_both _ _ _ _ _ _ _ _ Hb Hrb Ha Hra). split.
  - intros ->. cbn [negb andb]. case_bool_decide as Heq.
    + by split.
    + split; [|done]. by destruct (calculate_line b a).
  - intros Hshown.
    assert (negb (keep_zeros args) && bool_decide (b = a) = false) as ->.
    { destruct Hshown as [-> | Hne]; [done|].
      rewrite bool_decide_eq_false_2 by done. apply andb_false_r. }
    split; [|split; [|split]].
    + intros bi ai q d Hbi Hai Hq Hd.
      by rewrite (calculate_line_ok _ _ _ _ _ _ Hbi Hai Hq Hd).
    + by intros e ->.
    + unfold calculate_line. intros [Hbi|[Hai|Hbi]].
      * rewrite Hbi. by eexists.
      * rewrite Hai. destruct (Py.int b); by eexists.
      * rewrite Hbi. simpl. destruct (Py.int a); by eexists.
    + unfold calculate_line.
      destruct (Py.int b) as [e|bi]; [right; by eexists|].
      destruct (Py.int a) as [e|ai]; [right; by eexists|]. simpl.
      destruct (Py.int_true_divide (ai - bi) bi) as [e|q] eqn:Hq;
        [right; by eexists|]. simpl.
      destruct (Py.format_plus_d (ai - bi)) as [e|d] eqn:Hd;
        [right; by eexists|].
      left. by exists bi, ai, q, d.
Qed.

Lemma skip_iff_same_avg_text_witness :
  print_table_line (methods (report_with_avg (u "A.foo") (u "100")))
    (methods (report_with_avg (u "A.foo") (u "100"))) (u "A.foo")
    {| keep_zeros := true; both := false |} =
  ([u "| `A.foo` | 100 | 100 | +0 | +0.00% |"], inr tt).
Proof.
  exact (proj1 (proj2 (skip_iff_same_avg_text
                         (methods (report_with_avg (u "A.foo") (u "100")))
                         (methods (report_with_avg (u "A.foo") (u "100")))
                         (u "A.foo") (u "100") (u "100")
                         {[ u "avg" := u "100" ]} {[ u "avg" := u "100" ]}
                         {| keep_zeros := true; both := false |}
                         eq_refl eq_refl eq_refl eq_refl)
                  (or_introl eq_refl))
           100 100 (S754_zero false) (u "+0") eq_refl eq_refl eq_refl eq_refl).
Defined.

(** C7, as stated, fails: with avg "0" before and "-" after, the row
    computation stops at the conversion of "-" with a value error, before
    any division. *)
Lemma zero_before_avg_value_error :
  print_table_line (methods (report_with_avg (u "A.foo") (u "0")))
    (methods (report_with_avg (u "A.foo") (u "-"))) (u "A.foo")
    {| keep_zeros := false; both := false |} = ([], inl ValueError) ∧
  (format_markdown (report_with_avg (u "A.foo") (u "0"))
     (report_with_avg (u "A.foo") (u "-"))
     {| keep_zeros := false; both := false |}).2 = inl ValueError.
Proof. split; vm_compute; reflexivity. Qed.

(** C7, amended: for a key with a record on both sides whose before avg is
    "0" and which is not skipped, the row computation raises and prints
    nothing: a division by zero when the after avg converts to an integer,
    the value error of that conversion when it does not.  Nothing in the
    formatter catches it: [format_markdown] ends with an exception. *)
Theorem zero_before_avg_raises (before after : report)
    (datakey : report → gmap pystr (gmap pystr pystr))
    (key a : pystr) (rb ra : gmap pystr pystr) (args : Args) :
  datakey = methods ∨ datakey = deployments →
  datakey before !! key = Some rb → rb !! u "avg" = Some (u "0") →
  datakey after !! key = Some ra → ra !! u "avg" = Some a →
  keep_zeros args = true ∨ a ≠ u "0" →
  print_table_line (datakey before) (datakey after) key args =
    ([], inl (match Py.int a with
              | inr _ => ZeroDivisionError
              | inl _ => ValueError
              end)) ∧
  ∃ out e, format_markdown before after args = (out, inl e).
Proof.
  intros Hk Hb Hrb Ha Hra Hshown.
  assert (print_table_line (datakey before) (datakey after) key args =
            ([], inl (match Py.int a with
                      | inr _ => ZeroDivisionError
                      | inl _ => ValueError
                      end))) as Hrow.
  { rewrite (print_table_line_both _ _ _ _ _ _ _ _ Hb Hrb Ha Hra).
    assert (negb (keep_zeros args) && bool_decide (u "0" = a) = false) as ->.
    { destruct Hshown as [-> | Hne]; [done|].
      rewrite bool_decide_eq_false_2 by done. apply andb_false_r. }
    rewrite calculate_line_zero_before.
    destruct (Py.int a) as [e|ai] eqn:Hai; [|done].
    by rewrite (int_raises_ValueError _ _ Hai). }
  split; [exact Hrow|].
  apply (format_markdown_raises _ _ _ datakey Hk).
  unfold print_subdict_in_markdown_table.
  apply (for_each_raises _ _ key).
  - apply elem_of_dicts_union. left. by rewrite Hb.
  - by eauto.
Qed.

Lemma zero_before_avg_raises_witness :
  u "150" ≠ u "0" ∧
  print_table_line (methods (report_with_avg (u "A.foo") (u "0")))
    (methods (report_with_avg (u "A.foo") (u "150"))) (u "A.foo")
    {| keep_zeros := false; both := false |} =
  ([], inl (match Py.int (u "150") with
            | inr _ => ZeroDivisionError
            | inl _ => ValueError
            end)).
Proof.
  assert (u "150" ≠ u "0") as Hne by (vm_compute; discriminate).
  split; [exact Hne|].
  refine (proj1 (zero_before_avg_raises
                   (report_with_avg (u "A.foo") (u "0"))
                   (report_with_avg (u "A.foo") (u "150")) methods
                   (u "A.foo") (u "150")
                   {[ u "avg" := u "0" ]} {[ u "avg" := u "150" ]}
                   {| keep_zeros := false; both := false |}
                   (or_introl eq_refl) _ _ _ _ (or_intror Hne)));
    vm_compute; reflexivity.
Defined.

(** * Further properties *)

(** ** The line flattener *)

Lemma clean_cell_spec (t : pystr) :
  clean_cell t = true ↔
  t ≠ [] ∧ (MIDDLE_DOT ∉ t) ∧
  (∀ c, head t = Some c → c ∉ STRIP_CHARS) ∧
  (∀ c, last t = Some c → c ∉ STRIP_CHARS).
Proof.
  unfold clean_cell. rewrite !andb_true_iff, negb_true_iff, char_in_false.
  split.
  - intros [[[Ht Hdot] Hh] Hl]. repeat split; [by destruct t|done| |].
    + intros c Hc. rewrite Hc in Hh.
      by apply negb_true_iff, char_in_false in Hh.
    + intros c Hc. rewrite Hc in Hl.
      by apply negb_true_iff, char_in_false in Hl.
  - intros (Ht & Hdot & Hh & Hl). repeat split; [by destruct t|done| |].
    + destruct (head t) as [c|]; [|done].
      by apply negb_true_iff, char_in_false, Hh.
    + destruct (last t) as [c|]; [|done].
      by apply negb_true_iff, char_in_false, Hl.
Qed.

Lemma flatten_line_clean (line : pystr) :
  Forall (fun t => clean_cell t = true) (flatten_line line).
Proof.
  unfold flatten_line. rewrite flatten_columns_filter.
  destruct (split_segments MIDDLE_DOT line) as (_ & Hno & _).
  apply Forall_forall. intros t [Hne Hin]%list_elem_of_filter.
  apply list_elem_of_fmap in Hin as (seg & -> & Hseg).
  rewrite Forall_forall in Hno. specialize (Hno seg Hseg).
  destruct (strip_stripped STRIP_CHARS seg) as (pre & suf & Heq & _ & _ & Hh & Hl).
  apply clean_cell_spec. repeat split; [done| |done|done].
  intros Hdot. apply Hno. rewrite Heq.
  apply elem_of_app. right. apply elem_of_app. by left.
Qed.

(** X1: every column [flatten_line] returns is non-empty, holds no middle
    dot and neither starts nor ends with '│', '|', a space or a newline. *)
Theorem flatten_line_cells_clean (line : pystr) :
  Forall (fun t => t ≠ [] ∧ (MIDDLE_DOT ∉ t) ∧
                   (∀ c, head t = Some c → c ∉ STRIP_CHARS) ∧
                   (∀ c, last t = Some c → c ∉ STRIP_CHARS))
    (flatten_line line).
Proof.
  eapply Forall_impl; [apply flatten_line_clean|].
  intros t Ht. by apply clean_cell_spec.
Qed.

Lemma middle_dot_not_stripped : MIDDLE_DOT ∉ STRIP_CHARS.
Proof. by apply char_in_false. Qed.

Lemma space_stripped : Forall (fun c => c ∈ STRIP_CHARS) [SPACE].
Proof. constructor; [by apply char_in_spec | constructor]. Qed.

Lemma split_app_sep (sep : N) (a b : pystr) :
  Str.split sep (a ++ sep :: b) = Str.split sep a ++ Str.split sep b.
Proof.
  induction a as [|c a IH]; simpl.
  - by rewrite N.eqb_refl.
  - destruct (c =? sep)%N; [by rewrite IH|]. rewrite IH.
    pose proof (split_not_nil sep a). by destruct (Str.split sep a).
Qed.

Lemma flatten_columns_app (xs ys : list pystr) :
  flatten_columns (xs ++ ys) = flatten_columns xs ++ flatten_columns ys.
Proof.
  induction xs as [|x xs IH]; [done|]. cbn [flatten_columns app].
  destruct (truthy _); by rewrite IH.
Qed.

(** X2: a middle dot cuts the line in two independent parts: the columns of
    the whole line are the columns of what is before the dot followed by
    the columns of what is after it. *)
Theorem flatten_line_at_middle_dot (a b : pystr) :
  flatten_line (a ++ MIDDLE_DOT :: b) = flatten_line a ++ flatten_line b.
Proof.
  unfold flatten_line. by rewrite split_app_sep, flatten_columns_app.
Qed.

Lemma flatten_line_padded_cell (pre suf t : pystr) :
  Forall (fun c => c ∈ STRIP_CHARS) pre →
  Forall (fun c => c ∈ STRIP_CHARS) suf →
  clean_cell t = true →
  flatten_line (pre ++ t ++ suf) = [t].
Proof.
  intros Hpre Hsuf (Hne & Hdot & Hh & Hl)%clean_cell_spec.
  unfold flatten_line. rewrite split_without_sep.
  - cbn [flatten_columns].
    rewrite <- (stripped_unique STRIP_CHARS (pre ++ t ++ suf) t)
      by (by exists pre, suf).
    by destruct t.
  - rewrite !elem_of_app. intros [Hin|[Hin|Hin]]; [|done|].
    + rewrite Forall_forall in Hpre.
      exact (middle_dot_not_stripped (Hpre _ Hin)).
    + rewrite Forall_forall in Hsuf.
      exact (middle_dot_not_stripped (Hsuf _ Hin)).
Qed.

(** X3: flattening undoes the layout of a table row: columns that are clean,
    joined with " · " and put between borders made of '│', '|', spaces and
    newlines, come back unchanged and in order. *)
Theorem flatten_line_of_joined_cells (pre suf : pystr) (cells : list pystr) :
  Forall (fun c => c ∈ STRIP_CHARS) pre →
  Forall (fun c => c ∈ STRIP_CHARS) suf →
  Forall (fun t => clean_cell t = true) cells →
  flatten_line (pre ++ Str.join (u " · ") cells ++ suf) = cells.
Proof.
  intros Hpre Hsuf Hcells. revert pre Hpre.
  assert (∀ a b, flatten_line (a ++ MIDDLE_DOT :: b)
                 = flatten_line a ++ flatten_line b) as Hcut.
  { intros a b. unfold flatten_line.
    by rewrite split_app_sep, flatten_columns_app. }
  induction Hcells as [|t cells Ht Hcells IH]; intros pre Hpre.
  - simpl. apply flatten_columns_all_chars, split_Forall.
    apply Forall_app. split; [|done].
    eapply Forall_impl; [exact Hpre|]. by intros c ?.
  - destruct cells as [|t' cells].
    + simpl. by apply flatten_line_padded_cell.
    + rewrite join_cons2.
      change (u " · ") with ([SPACE] ++ MIDDLE_DOT :: [SPACE]).
      replace (pre ++ (t ++ ([SPACE] ++ MIDDLE_DOT :: [SPACE])
                         ++ Str.join ([SPACE] ++ MIDDLE_DOT :: [SPACE])
                              (t' :: cells)) ++ suf)
        with ((pre ++ t ++ [SPACE]) ++ MIDDLE_DOT ::
              ([SPACE] ++ Str.join ([SPACE] ++ MIDDLE_DOT :: [SPACE])
                            (t' :: cells) ++ suf))
        by (by rewrite <- !app_assoc).
      rewrite Hcut.
      rewrite flatten_line_padded_cell; [|done| |done].
      * simpl. f_equal. apply (IH [SPACE]), space_stripped.
      * apply space_stripped.
Qed.

Lemma flatten_line_of_joined_cells_witness :
  flatten_line (u "│  " ++ Str.join (u " · ")
                             [u "Greeter"; u "497026"; u "1.7 %"; u "-"]
                ++ u "  │" ++ [NEWLINE]) =
  [u "Greeter"; u "497026"; u "1.7 %"; u "-"].
Proof.
  apply flatten_line_of_joined_cells.
  - repeat constructor.
  - repeat constructor.
  - repeat constructor.
Defined.

(** ** The report parser *)

(** What one iteration can do, by cases on the state and the line. *)
Lemma body_inv (l l' : Parser.locals) (line : pystr) :
  Parser.body l line = ret l' →
  (Parser.state l = HEADER ∧
   Parser.methods l' = Parser.methods l ∧
   Parser.deployments l' = Parser.deployments l ∧
   Parser.state l' = Parser.next_state l' ∧
   Parser.next_state l' =
     if Str.contains (u "Contract") line then METHODS
     else Parser.next_state l) ∨
  (Parser.state l = METHODS ∧
   Parser.deployments l' = Parser.deployments l ∧
   Parser.state l' = Parser.next_state l' ∧
   if Str.contains (u "Deployments") line
   then Parser.methods l' = Parser.methods l ∧
        Parser.next_state l' = DEPLOYMENTS
   else Parser.next_state l' = Parser.next_state l ∧
        (Parser.methods l' = Parser.methods l ∨
         ∃ contract method min max avg calls avgeur,
           flatten_line line =
             [contract; method; min; max; avg; calls; avgeur] ∧
           Parser.methods l' =
             <[contract ++ u "." ++ method :=
                 dict (zip METHOD_COLUMNS (flatten_line line))]>
               (Parser.methods l))) ∨
  (Parser.state l = DEPLOYMENTS ∧
   Parser.methods l' = Parser.methods l ∧
   Parser.state l' = Parser.next_state l' ∧
   Parser.next_state l' = Parser.next_state l ∧
   (Parser.deployments l' = Parser.deployments l ∨
    ∃ contract min max avg pctg avgeur,
      flatten_line line = [contract; min; max; avg; pctg; avgeur] ∧
      Parser.deployments l' =
        <[contract := dict (zip DEPLOYMENT_COLUMNS (flatten_line line))]>
          (Parser.deployments l))).
Proof.
  unfold Parser.body. intros (l1 & Hd & Hl')%bind_ret_inv.
  injection Hl' as <-. destruct (Parser.state l) eqn:Hst.
  - left. unfold Parser.dispatch in Hd. rewrite Hst in Hd.
    destruct (Str.contains _ line); injection Hd as <-; by repeat split.
  - right; left. destruct (Str.contains (u "Deployments") line) eqn:Hc.
    + unfold Parser.dispatch in Hd. rewrite Hst, Hc in Hd.
      injection Hd as <-. by repeat split.
    + rewrite dispatch_methods in Hd by done.
      destruct (flatten_line line) as [|a data];
        [injection Hd as <-; repeat split; by auto|].
      do 6 (destruct data as [|? data];
            [injection Hd as <-; repeat split; by auto|]).
      destruct data; injection Hd as <-; repeat split; auto.
      right. by do 7 eexists.
  - right; right. rewrite dispatch_deployments in Hd by done.
    destruct (flatten_line line) as [|a data];
      [injection Hd as <-; repeat split; by auto|].
    do 5 (destruct data as [|? data];
          [injection Hd as <-; repeat split; by auto|]).
    destruct data; injection Hd as <-; repeat split; auto.
    right. by do 6 eexists.
Qed.

(** A property that every iteration keeps holds at the end of the loop. *)
Lemma loop_invariant (P : Parser.locals → Prop) (Q : pystr → Prop)
    (lines : list pystr) (l l' : Parser.locals) :
  (∀ l line l', Q line → P l → Parser.body l line = ret l' → P l') →
  Forall Q lines → P l → Parser.loop l lines = ret l' → P l'.
Proof.
  intros Hstep Hlines. revert l.
  induction Hlines as [|line lines Hline _ IH]; intros l HP Hloop.
  - by injection Hloop as <-.
  - simpl in Hloop. apply bind_ret_inv in Hloop as (l1 & Hb & Hloop).
    eapply IH; [|exact Hloop]. by eapply Hstep.
Qed.

Lemma Forall_any {A} (l : list A) : Forall (fun _ => True) l.
Proof. by apply Forall_forall. Qed.

Lemma parsed_methods_insert (sec : gmap pystr (gmap pystr pystr))
    (c m mn mx av ca eu : pystr) :
  parsed_methods sec →
  Forall (fun t => clean_cell t = true) [c; m; mn; mx; av; ca; eu] →
  parsed_methods
    (<[c ++ u "." ++ m := dict (zip METHOD_COLUMNS [c; m; mn; mx; av; ca; eu])]>
       sec).
Proof.
  intros Hsec Hclean key r Hr.
  destruct (decide (c ++ u "." ++ m = key)) as [<-|Hne].
  - rewrite lookup_insert_eq in Hr. injection Hr as <-.
    by exists c, m, mn, mx, av, ca, eu.
  - rewrite lookup_insert_ne in Hr by done. by apply Hsec.
Qed.

Lemma parsed_deployments_insert (sec : gmap pystr (gmap pystr pystr))
    (c mn mx av pc eu : pystr) :
  parsed_deployments sec →
  Forall (fun t => clean_cell t = true) [c; mn; mx; av; pc; eu] →
  parsed_deployments
    (<[c := dict (zip DEPLOYMENT_COLUMNS [c; mn; mx; av; pc; eu])]> sec).
Proof.
  intros Hsec Hclean key r Hr.
  destruct (decide (c = key)) as [<-|Hne].
  - rewrite lookup_insert_eq in Hr. injection Hr as <-.
    by exists c, mn, mx, av, pc, eu.
  - rewrite lookup_insert_ne in Hr by done. by apply Hsec.
Qed.

Lemma body_keeps_parsed (l l' : Parser.locals) (line : pystr) :
  parsed_methods (Parser.methods l) ∧
  parsed_deployments (Parser.deployments l) →
  Parser.body l line = ret l' →
  parsed_methods (Parser.methods l') ∧
  parsed_deployments (Parser.deployments l').
Proof.
  intros [Hm Hd] Hb. pose proof (flatten_line_clean line) as Hclean.
  apply body_inv in Hb as [(_ & -> & -> & _)|[(_ & -> & _ & Hb)|(_ & -> & _ & _ & Hb)]].
  - done.
  - split; [|done]. destruct (Str.contains _ line).
    + by destruct Hb as [-> _].
    + destruct Hb as (_ & [->|(c & m & mn & mx & av & ca & eu & Hdata & ->)]);
        [done|].
      rewrite Hdata in *. by apply parsed_methods_insert.
  - split; [done|].
    destruct Hb as [->|(c & mn & mx & av & pc & eu & Hdata & ->)]; [done|].
    rewrite Hdata in *. by apply parsed_deployments_insert.
Qed.

Lemma loop_keeps_parsed (lines : list pystr) (l : Parser.locals) :
  Parser.loop Parser.init lines = ret l →
  parsed_methods (Parser.methods l) ∧
  parsed_deployments (Parser.deployments l).
Proof.
  apply (loop_invariant
           (fun l => parsed_methods (Parser.methods l) ∧
                     parsed_deployments (Parser.deployments l))
           (fun _ => True) lines Parser.init l); [| |split].
  - intros l0 line l1 _. apply body_keeps_parsed.
  - apply Forall_any.
  - by intros key r Hr.
  - by intros key r Hr.
Qed.

(** X4: for the lines read from a file, whatever they hold, the parser
    returns a report in which every methods record is the seven column
    names zipped with seven clean texts under the key contract.method, and
    every deployments record the six column names zipped with six clean
    texts under its contract. *)
Theorem parsed_report_well_formed (lines : list pystr) :
  ∃ rep, new_report_dict_from_file lines = ret rep ∧
         parsed_methods (methods rep) ∧ parsed_deployments (deployments rep).
Proof.
  destruct (loop_total Parser.init lines) as (l & Hl).
  exists (Report (Parser.methods l) (Parser.deployments l)).
  split; [unfold new_report_dict_from_file; by rewrite Hl|].
  by apply (loop_keeps_parsed lines).
Qed.

Lemma loop_app (l : Parser.locals) (xs ys : list pystr) :
  Parser.loop l (xs ++ ys) =
  bind (Parser.loop l xs) (fun l' => Parser.loop l' ys).
Proof.
  revert l. induction xs as [|x xs IH]; intros l; [done|].
  simpl. destruct (Parser.body l x) as [e|l1]; [done|]. apply IH.
Qed.

(** X5: lines that come before the first line holding "Contract" do not
    count: a file gives the same report with or without them. *)
Theorem lines_before_contract_ignored (pre rest : list pystr) :
  Forall (fun line => Str.contains (u "Contract") line = false) pre →
  new_report_dict_from_file (pre ++ rest) = new_report_dict_from_file rest.
Proof.
  intros Hpre. unfold new_report_dict_from_file.
  by rewrite loop_app, loop_header_only.
Qed.

Lemma lines_before_contract_ignored_witness :
  new_report_dict_from_file
    ([sample_method_line; sample_deployment_line] ++
     [sample_columns_line; sample_method_line]) =
  new_report_dict_from_file [sample_columns_line; sample_method_line].
Proof.
  apply lines_before_contract_ignored. repeat constructor.
Defined.

Lemma body_keeps_empty (l l' : Parser.locals) (line : pystr) :
  (Parser.state l = Parser.next_state l ∧
   (Parser.state l = HEADER →
    Parser.methods l = ∅ ∧ Parser.deployments l = ∅) ∧
   (Parser.state l = METHODS → Parser.deployments l = ∅)) →
  Parser.body l line = ret l' →
  Parser.state l' = Parser.next_state l' ∧
  (Parser.state l' = HEADER →
   Parser.methods l' = ∅ ∧ Parser.deployments l' = ∅) ∧
  (Parser.state l' = METHODS → Parser.deployments l' = ∅).
Proof.
  intros (Hsync & Hh & Hm) Hb.
  apply body_inv in Hb
    as [(Hst & -> & -> & Hs' & Hn)|[(Hst & -> & Hs' & Hb)|(Hst & _ & Hs' & Hn & _)]].
  - destruct (Hh Hst) as [-> ->]. by repeat split.
  - specialize (Hm Hst). split; [done|]. split; [|done].
    intros Hst'. rewrite Hs' in Hst'.
    destruct (Str.contains _ line); destruct Hb as [? ?]; congruence.
  - split; [done|]. split; intros Hst'; congruence.
Qed.

(** X6: nothing is stored before the markers are seen: as long as the parser
    is in HEADER both mappings are empty, and as long as it is in METHODS
    the deployments mapping is empty. *)
Theorem nothing_stored_before_markers (l : Parser.locals) :
  reachable l →
  (Parser.state l = HEADER →
   Parser.methods l = ∅ ∧ Parser.deployments l = ∅) ∧
  (Parser.state l = METHODS → Parser.deployments l = ∅).
Proof.
  intros (lines & Hl).
  apply (loop_invariant
           (fun l => Parser.state l = Parser.next_state l ∧
              (Parser.state l = HEADER →
               Parser.methods l = ∅ ∧ Parser.deployments l = ∅) ∧
              (Parser.state l = METHODS → Parser.deployments l = ∅))
           (fun _ => True) lines Parser.init l); [| | |done].
  - intros l0 line l1 _. apply body_keeps_empty.
  - apply Forall_any.
  - by repeat split.
Qed.

Lemma nothing_stored_before_markers_witness :
  reachable (Parser.Locals
               {[ u "Greeter.setGreeting" :=
                    dict (zip METHOD_COLUMNS
                            (flatten_line sample_method_line)) ]}
               ∅ METHODS METHODS) ∧
  Parser.deployments
    (Parser.Locals
       {[ u "Greeter.setGreeting" :=
            dict (zip METHOD_COLUMNS (flatten_line sample_method_line)) ]}
       ∅ METHODS METHODS) = ∅.
Proof.
  assert (reachable
            (Parser.Locals
               {[ u "Greeter.setGreeting" :=
                    dict (zip METHOD_COLUMNS
                            (flatten_line sample_method_line)) ]}
               ∅ METHODS METHODS)) as Hr.
  { exists [sample_columns_line; sample_method_line]. vm_compute. reflexivity. }
  split; [exact Hr|].
  exact (proj2 (nothing_stored_before_markers _ Hr) eq_refl).
Defined.

(** X7: once the parser is in DEPLOYMENTS the methods mapping is final:
    whatever lines follow, it stays as it was. *)
Theorem methods_final_in_deployments (l : Parser.locals)
    (lines : list pystr) :
  reachable l → Parser.state l = DEPLOYMENTS →
  ∃ l', Parser.loop l lines = ret l' ∧
        Parser.methods l' = Parser.methods l.
Proof.
  intros Hr Hst. pose proof (reachable_sync l Hr) as Hsync.
  destruct (loop_total l lines) as (l' & Hl). exists l'. split; [done|].
  refine (proj2 (loop_invariant
           (fun l0 => (Parser.state l0 = DEPLOYMENTS ∧
                       Parser.next_state l0 = DEPLOYMENTS) ∧
                      Parser.methods l0 = Parser.methods l)
           (fun _ => True) lines l l' _ (Forall_any _) _ Hl)).
  - intros l0 line l1 _ [[Hs Hn] Hm] Hb.
    apply body_inv in Hb
      as [(? & _)|[(? & _)|(_ & Hm' & Hs' & Hn' & _)]]; [congruence..|].
    repeat split; congruence.
  - repeat split; congruence.
Qed.

Lemma methods_final_in_deployments_witness :
  ∃ l', Parser.loop (Parser.Locals ∅ ∅ DEPLOYMENTS DEPLOYMENTS)
          [sample_method_line; sample_deployment_line] = ret l' ∧
        Parser.methods l' = ∅.
Proof.
  apply (methods_final_in_deployments
           (Parser.Locals ∅ ∅ DEPLOYMENTS DEPLOYMENTS)); [|reflexivity].
  exists [sample_columns_line; sample_marker_line]. reflexivity.
Defined.

(** X8: no iteration removes a key: the keys of both mappings after the
    loop include those before it. *)
Theorem keys_never_removed (l : Parser.locals) (lines : list pystr) :
  ∃ l', Parser.loop l lines = ret l' ∧
        dom (Parser.methods l) ⊆ dom (Parser.methods l') ∧
        dom (Parser.deployments l) ⊆ dom (Parser.deployments l').
Proof.
  destruct (loop_total l lines) as (l' & Hl). exists l'. split; [done|].
  apply (loop_invariant
           (fun l0 => dom (Parser.methods l) ⊆ dom (Parser.methods l0) ∧
                      dom (Parser.deployments l) ⊆ dom (Parser.deployments l0))
           (fun _ => True) lines l l'); [| |done|done].
  - intros l0 line l1 _ [Hm Hd] Hb.
    apply body_inv in Hb
      as [(_ & -> & -> & _)|[(_ & -> & _ & Hb)|(_ & -> & _ & _ & Hb)]];
      [done| |].
    + split; [|done]. destruct (Str.contains _ line).
      * by destruct Hb as [-> _].
      * destruct Hb as (_ & [->|(? & ? & ? & ? & ? & ? & ? & _ & ->)]);
          [done|]. rewrite dom_insert. set_solver.
    + split; [done|].
      destruct Hb as [->|(? & ? & ? & ? & ? & ? & _ & ->)]; [done|].
      rewrite dom_insert. set_solver.
  - apply Forall_any.
Qed.

(** X9: a file without a line holding "Deployments" gives an empty
    deployments mapping. *)
Theorem no_marker_no_deployments (lines : list pystr) :
  Forall (fun line => Str.contains (u "Deployments") line = false) lines →
  ∃ rep, new_report_dict_from_file lines = ret rep ∧ deployments rep = ∅.
Proof.
  intros Hno. destruct (loop_total Parser.init lines) as (l & Hl).
  exists (Report (Parser.methods l) (Parser.deployments l)).
  split; [unfold new_report_dict_from_file; by rewrite Hl|]. simpl.
  refine (proj2 (loop_invariant
           (fun l0 => (Parser.state l0 ≠ DEPLOYMENTS ∧
                       Parser.next_state l0 ≠ DEPLOYMENTS) ∧
                      Parser.deployments l0 = ∅)
           _ lines Parser.init l _ Hno _ Hl)).
  - intros l0 line l1 Hline [[Hs Hn] Hd] Hb.
    apply body_inv in Hb
      as [(_ & _ & -> & Hs' & Hn')|[(_ & -> & Hs' & Hb)|(? & _)]]; [| |done].
    + destruct (Str.contains (u "Contract") line); repeat split; congruence.
    + simpl in Hline. rewrite Hline in Hb. destruct Hb as [Hn' _].
      repeat split; congruence.
  - by repeat split.
Qed.

Lemma no_marker_no_deployments_witness :
  ∃ rep, new_report_dict_from_file
           [sample_columns_line; sample_method_line; sample_deployment_line]
         = ret rep ∧ deployments rep = ∅.
Proof.
  apply no_marker_no_deployments. repeat constructor.
Defined.

(** ** The diff formatter *)

(** X10: the formatter always prints the two header rows first, also when a
    later row makes it raise. *)
Theorem header_rows_always_first (before after : report) (args : Args) :
  ∃ body r,
    format_markdown before after args =
      (u "| Method call or Contract deployment | Before | After | After - Before | (After - Before) / Before |"
       :: u "| :- | :-: | :-: | :-: | :-: |" :: body, r).
Proof.
  unfold format_markdown. rewrite !print_list_text.
  change (table_line MARKDOWN_TABLE_COLUMNS)
    with (u "| Method call or Contract deployment | Before | After | After - Before | (After - Before) / Before |").
  change (table_line MARKDOWN_TABLE_ALIGNMENTS)
    with (u "| :- | :-: | :-: | :-: | :-: |").
  unfold IO.bind at 1 2.
  destruct (print_subdict_in_markdown_table before after methods args)
    as [o1 [e1|[]]]; simpl; [by eauto|].
  destruct (print_subdict_in_markdown_table before after deployments args)
    as [o2 r2]; simpl. by eauto.
Qed.

Lemma print_table_line_at_most_one (before after : gmap pystr (gmap pystr pystr))
    (key : pystr) (args : Args) :
  (length (print_table_line before after key args).1 ≤ 1)%nat.
Proof.
  unfold print_table_line.
  destruct (has_key before key), (has_key after key), (both args),
    (keep_zeros args); simpl;
    repeat match goal with
           | |- context [avg_of ?d ?k] => destruct (avg_of d k); simpl
           | |- context [bool_decide ?P] => destruct (bool_decide P); simpl
           | |- context [calculate_line ?b ?a] =>
               destruct (calculate_line b a); simpl
           end; lia.
Qed.

Lemma for_each_length {A} (xs : list A) (f : A → io unit) :
  (∀ x, length (f x).1 ≤ 1)%nat →
  (length (IO.for_each xs f).1 ≤ length xs)%nat.
Proof.
  intros Hf. induction xs as [|x xs IH]; simpl; [lia|].
  specialize (Hf x). unfold IO.bind.
  destruct (f x) as [o [e|[]]]; simpl in *; [lia|].
  destruct (IO.for_each xs f) as [o' r]. simpl in *.
  rewrite length_app. lia.
Qed.

(** X11: a key gets at most one row, so a section prints at most as many
    rows as the two mappings have keys together, and the whole table at
    most two header rows more than the keys of both sections. *)
Theorem at_most_one_row_per_key (before after : report) (args : Args) :
  (∀ datakey,
     length (print_subdict_in_markdown_table before after datakey args).1
     ≤ size (dom (datakey before) ∪ dom (datakey after)))%nat ∧
  (length (format_markdown before after args).1
   ≤ 2 + size (dom (methods before) ∪ dom (methods after))
       + size (dom (deployments before) ∪ dom (deployments after)))%nat.
Proof.
  assert (∀ datakey,
     length (print_subdict_in_markdown_table before after datakey args).1
     ≤ size (dom (datakey before) ∪ dom (datakey after)))%nat as Hsec.
  { intros datakey. unfold print_subdict_in_markdown_table.
    etrans; [apply for_each_length; intros; apply print_table_line_at_most_one|].
    unfold dicts_union, sorted, keys.
    by rewrite merge_sort_Permutation. }
  split; [exact Hsec|].
  pose proof (Hsec methods) as Hm. pose proof (Hsec deployments) as Hd.
  unfold format_markdown. rewrite !print_list_text. unfold IO.bind at 1 2.
  destruct (print_subdict_in_markdown_table before after methods args)
    as [o1 [e1|[]]]; simpl in *; [lia|].
  destruct (print_subdict_in_markdown_table before after deployments args)
    as [o2 r2]; simpl in *. rewrite length_app. lia.
Qed.

(** X12: the table stops at the first key whose row raises: the rows of the
    keys before it are printed, then what that key printed, nothing of the
    keys after it, and the section ends with that exception. *)
Theorem table_stops_at_first_failure (before after : report)
    (datakey : report → gmap pystr (gmap pystr pystr)) (args : Args)
    (pre post : list pystr) (key : pystr) (o : list pystr) (e : exn) :
  dicts_union (datakey before) (datakey after) = pre ++ key :: post →
  Forall (fun k =>
            (print_table_line (datakey before) (datakey after) k args).2
            = inr tt) pre →
  print_table_line (datakey before) (datakey after) key args = (o, inl e) →
  print_subdict_in_markdown_table before after datakey args =
    (concat ((fun k =>
                (print_table_line (datakey before) (datakey after) k args).1)
             <$> pre) ++ o, inl e).
Proof.
  intros Hkeys Hpre Hkey. unfold print_subdict_in_markdown_table.
  rewrite Hkeys. by apply for_each_stops.
Qed.

Lemma table_stops_at_first_failure_witness :
  print_subdict_in_markdown_table three_methods_before three_methods_after
    methods {| keep_zeros := false; both := false |} =
  ([u "| `A.f` | 10 | 20 | +10 | +100.00% |"], inl ZeroDivisionError).
Proof.
  rewrite (table_stops_at_first_failure three_methods_before
             three_methods_after methods
             {| keep_zeros := false; both := false |}
             [u "A.f"] [u "C.h"] (u "B.g") [] ZeroDivisionError).
  - vm_compute. reflexivity.
  - vm_compute. reflexivity.
  - repeat constructor.
  - vm_compute. reflexivity.
Defined.

(** Records stored by the parser have an avg. *)
Lemma parsed_methods_avg (sec : gmap pystr (gmap pystr pystr))
    (key : pystr) (r : gmap pystr pystr) :
  parsed_methods sec → sec !! key = Some r → is_Some (r !! u "avg").
Proof.
  intros Hsec Hr.
  destruct (Hsec key r Hr) as (c & m & mn & mx & av & ca & eu & _ & -> & _).
  by exists av.
Qed.

Lemma parsed_deployments_avg (sec : gmap pystr (gmap pystr pystr))
    (key : pystr) (r : gmap pystr pystr) :
  parsed_deployments sec → sec !! key = Some r → is_Some (r !! u "avg").
Proof.
  intros Hsec Hr.
  destruct (Hsec key r Hr) as (c & mn & mx & av & pc & eu & _ & -> & _).
  by exists av.
Qed.

Lemma for_each_silent {A} (xs : list A) (f : A → io unit) :
  Forall (fun x => f x = ([], inr tt)) xs →
  IO.for_each xs f = ([], inr tt).
Proof.
  induction 1 as [|x xs Hx _ IH]; [done|].
  simpl. unfold IO.bind. by rewrite Hx, IH.
Qed.

(** A section compared with itself, [keep_zeros] off: no row, no error. *)
Lemma same_section_silent (sec : gmap pystr (gmap pystr pystr))
    (both : bool) :
  (∀ key r, sec !! key = Some r → is_Some (r !! u "avg")) →
  IO.for_each (dicts_union sec sec)
    (fun key => print_table_line sec sec key
                  {| keep_zeros := false; both := both |}) = ([], inr tt).
Proof.
  intros Havg. apply for_each_silent, Forall_forall. intros key Hkey.
  apply elem_of_dicts_union in Hkey.
  assert (is_Some (sec !! key)) as [r Hr] by tauto.
  destruct (Havg key r Hr) as [avg Hra].
  rewrite (print_table_line_both _ _ _ _ _ _ _ _ Hr Hra Hr Hra). simpl.
  by rewrite bool_decide_eq_true_2.
Qed.

(** X13: the lines read from a file, compared with themselves without
    [keep_zeros], give the two header rows and nothing else, whatever the
    lines hold; in particular no conversion or division is attempted. *)
Theorem same_file_prints_header_only (lines : list pystr) (both : bool) :
  main lines lines {| keep_zeros := false; both := both |} =
  ([table_line MARKDOWN_TABLE_COLUMNS; table_line MARKDOWN_TABLE_ALIGNMENTS],
   inr tt).
Proof.
  destruct (loop_total Parser.init lines) as (l & Hl).
  destruct (loop_keeps_parsed lines l Hl) as [Hm Hd].
  unfold main, new_report_dict_from_file. rewrite Hl.
  cbn [bind IO.lift IO.bind ret app].
  set (rep := Report (Parser.methods l) (Parser.deployments l)).
  unfold format_markdown, print_subdict_in_markdown_table.
  rewrite !print_list_text.
  rewrite (same_section_silent (methods rep))
    by (intros key r; by apply parsed_methods_avg).
  rewrite (same_section_silent (deployments rep))
    by (intros key r; by apply parsed_deployments_avg).
  reflexivity.
Qed.

Lemma for_each_error_inv {A} (xs : list A) (f : A → io unit)
    (out : list pystr) (e : exn) :
  IO.for_each xs f = (out, inl e) →
  ∃ x o, x ∈ xs ∧ f x = (o, inl e).
Proof.
  revert out. induction xs as [|x xs IH]; intros out; [done|].
  simpl. unfold IO.bind. destruct (f x) as [o [e'|[]]] eqn:Hx.
  - intros [= _ ->]. exists x, o. split; [by left|done].
  - destruct (IO.for_each xs f) as [o' r'] eqn:Hrest. intros [= _ ->].
    destruct (IH o' eq_refl) as (y & oy & Hy & Hfy).
    exists y, oy. split; [by right|done].
Qed.

Lemma calculate_line_error (b a : pystr) (e : exn) :
  calculate_line b a = raise e →
  e = ValueError ∨ e = ZeroDivisionError ∨ e = OverflowError.
Proof.
  unfold calculate_line.
  destruct (Py.int b) as [eb|bi] eqn:Hb; simpl.
  { intros [= <-]. left. by eapply int_raises_ValueError. }
  destruct (Py.int a) as [ea|ai] eqn:Ha; simpl.
  { intros [= <-]. left. by eapply int_raises_ValueError. }
  unfold Py.int_true_divide. destruct (bi =? 0); simpl.
  { intros [= <-]. by right; left. }
  destruct (SFdiv _ _ _ _); simpl;
    try (intros [= <-]; by right; right);
    (destruct (Py.format_plus_d (ai - bi)) as [ef|d] eqn:Hf; simpl; [|done];
     intros [= <-]; left; by eapply format_raises_ValueError).
Qed.

Lemma print_table_line_error (before after : gmap pystr (gmap pystr pystr))
    (key : pystr) (args : Args) (o : list pystr) (e : exn) :
  (∀ k r, before !! k = Some r → is_Some (r !! u "avg")) →
  (∀ k r, after !! k = Some r → is_Some (r !! u "avg")) →
  print_table_line before after key args = (o, inl e) →
  e = ValueError ∨ e = ZeroDivisionError ∨ e = OverflowError.
Proof.
  intros Hb Ha. destruct (before !! key) as [rb|] eqn:Hkb;
    destruct (after !! key) as [ra|] eqn:Hka.
  - destruct (Hb key rb Hkb) as [b Hrb]. destruct (Ha key ra Hka) as [a Hra].
    rewrite (print_table_line_both _ _ _ _ _ _ _ _ Hkb Hrb Hka Hra).
    destruct (negb (keep_zeros args) && bool_decide (b = a)); [done|].
    destruct (calculate_line b a) as [e'|cells] eqn:Hc; [|done].
    intros [= _ ->]. by eapply calculate_line_error.
  - destruct (Hb key rb Hkb) as [b Hrb]. unfold print_table_line.
    rewrite (has_key_Some _ _ _ Hkb), (has_key_None _ _ Hka).
    rewrite (avg_of_Some _ _ _ _ Hkb Hrb). by destruct (both args).
  - destruct (Ha key ra Hka) as [a Hra]. unfold print_table_line.
    rewrite (has_key_None _ _ Hkb), (has_key_Some _ _ _ Hka).
    rewrite (avg_of_Some _ _ _ _ Hka Hra). by destruct (both args).
  - unfold print_table_line.
    rewrite (has_key_None _ _ Hkb), (has_key_None _ _ Hka).
    by destruct (both args).
Qed.

(** X14: once the lines of both files have been read, the program can only
    fail in the computation of a row: with a value error (an avg that is
    not an integer, or too many digits), a division by zero (before avg 0)
    or an overflow of the quotient.  Parsing the lines never raises and no
    record lacks its avg, so there is never a key error. *)
Theorem main_errors (before_lines after_lines : list pystr) (args : Args)
    (out : list pystr) (e : exn) :
  main before_lines after_lines args = (out, inl e) →
  e = ValueError ∨ e = ZeroDivisionError ∨ e = OverflowError.
Proof.
  destruct (loop_total Parser.init before_lines) as (lb & Hlb).
  destruct (loop_total Parser.init after_lines) as (la & Hla).
  destruct (loop_keeps_parsed _ _ Hlb) as [Hbm Hbd].
  destruct (loop_keeps_parsed _ _ Hla) as [Ham Had].
  unfold main, new_report_dict_from_file. rewrite Hlb, Hla.
  cbn [bind IO.lift IO.bind ret app].
  unfold format_markdown, print_subdict_in_markdown_table.
  rewrite !print_list_text. unfold IO.bind at 1 2. cbn [methods deployments].
  destruct (IO.for_each (dicts_union (Parser.methods lb) (Parser.methods la)) _)
    as [o1 [e1|[]]] eqn:H1.
  - intros [= _ ->]. apply for_each_error_inv in H1 as (k & o & _ & Hk).
    eapply print_table_line_error; [| |exact Hk];
      intros k' r; by apply parsed_methods_avg.
  - destruct (IO.for_each
                (dicts_union (Parser.deployments lb) (Parser.deployments la)) _)
      as [o2 [e2|[]]] eqn:H2; [|done].
    intros [= _ ->]. apply for_each_error_inv in H2 as (k & o & _ & Hk).
    eapply print_table_line_error; [| |exact Hk];
      intros k' r; by apply parsed_deployments_avg.
Qed.

Lemma main_errors_witness :
  ∃ out e,
    main [sample_columns_line; sample_zero_avg_line]
      [sample_columns_line; sample_method_line]
      {| keep_zeros := false; both := false |} = (out, inl e) ∧
    (e = ValueError ∨ e = ZeroDivisionError ∨ e = OverflowError).
Proof.
  eexists _, _. split; [vm_compute; reflexivity|].
  eapply (main_errors [sample_columns_line; sample_zero_avg_line]
            [sample_columns_line; sample_method_line]
            {| keep_zeros := false; both := false |}).
  vm_compute. reflexivity.
Defined.

Lemma for_each_rows {A} (xs : list A) (f : A → io unit) (g : A → pystr) :
  Forall (fun x => f x = ([g x], inr tt)) xs →
  IO.for_each xs f = (g <$> xs, inr tt).
Proof.
  induction 1 as [|x xs Hx _ IH]; [done|].
  simpl. unfold IO.bind. by rewrite Hx, IH.
Qed.

Lemma avg_text_Some (sec : gmap pystr (gmap pystr pystr)) (key avg : pystr)
    (r : gmap pystr pystr) :
  sec !! key = Some r → r !! u "avg" = Some avg → avg_text sec key = avg.
Proof. intros H1 H2. unfold avg_text. by rewrite H1, H2. Qed.

(** A section compared with an empty one, [both] off: one row per key. *)
Lemma added_section_rows (sec : gmap pystr (gmap pystr pystr)) (args : Args) :
  both args = false →
  (∀ key r, sec !! key = Some r → is_Some (r !! u "avg")) →
  IO.for_each (dicts_union ∅ sec)
    (fun key => print_table_line ∅ sec key args)
  = (added_row sec <$> dicts_union ∅ sec, inr tt).
Proof.
  intros Hboth Havg. apply for_each_rows, Forall_forall. intros key Hkey.
  apply elem_of_dicts_union in Hkey as [[? Hk]|[r Hr]];
    [by rewrite lookup_empty in Hk|].
  destruct (Havg key r Hr) as [avg Hra]. unfold print_table_line.
  rewrite (has_key_None ∅ key) by apply lookup_empty.
  rewrite (has_key_Some _ _ _ Hr), Hboth, (avg_of_Some _ _ _ _ Hr Hra).
  cbn [andb negb IO.lift IO.bind ret app]. rewrite print_list_text.
  unfold added_row. by rewrite (avg_text_Some _ _ _ _ Hr Hra).
Qed.

Lemma removed_section_rows (sec : gmap pystr (gmap pystr pystr)) (args : Args) :
  both args = false →
  (∀ key r, sec !! key = Some r → is_Some (r !! u "avg")) →
  IO.for_each (dicts_union sec ∅)
    (fun key => print_table_line sec ∅ key args)
  = (removed_row sec <$> dicts_union sec ∅, inr tt).
Proof.
  intros Hboth Havg. apply for_each_rows, Forall_forall. intros key Hkey.
  apply elem_of_dicts_union in Hkey as [[r Hr]|[? Hk]];
    [|by rewrite lookup_empty in Hk].
  destruct (Havg key r Hr) as [avg Hra]. unfold print_table_line.
  rewrite (has_key_None ∅ key) by apply lookup_empty.
  rewrite (has_key_Some _ _ _ Hr), Hboth, (avg_of_Some _ _ _ _ Hr Hra).
  cbn [andb negb IO.lift IO.bind ret app]. rewrite print_list_text.
  unfold removed_row. by rewrite (avg_text_Some _ _ _ _ Hr Hra).
Qed.

(** X15: the lines read from a report file, compared with those of an
    empty file, [both] off, give no exception and list every record once,
    methods first, each section in key order: the avg stands in the After
    column when the empty file is the before file, in the Before column
    when it is the after file, with "-" in the three other columns. *)
Theorem compared_with_empty_file (lines : list pystr) (keep_zeros : bool) :
  ∃ rep, new_report_dict_from_file lines = ret rep ∧
    main [] lines {| keep_zeros := keep_zeros; both := false |} =
      ([table_line MARKDOWN_TABLE_COLUMNS;
        table_line MARKDOWN_TABLE_ALIGNMENTS]
       ++ (added_row (methods rep) <$> dicts_union ∅ (methods rep))
       ++ (added_row (deployments rep) <$> dicts_union ∅ (deployments rep)),
       inr tt) ∧
    main lines [] {| keep_zeros := keep_zeros; both := false |} =
      ([table_line MARKDOWN_TABLE_COLUMNS;
        table_line MARKDOWN_TABLE_ALIGNMENTS]
       ++ (removed_row (methods rep) <$> dicts_union (methods rep) ∅)
       ++ (removed_row (deployments rep)
             <$> dicts_union (deployments rep) ∅),
       inr tt).
Proof.
  destruct (loop_total Parser.init lines) as (l & Hl).
  destruct (loop_keeps_parsed lines l Hl) as [Hm Hd].
  exists (Report (Parser.methods l) (Parser.deployments l)).
  unfold main, new_report_dict_from_file. rewrite Hl.
  cbn [bind Parser.loop IO.lift IO.bind ret app Parser.init
       Parser.methods Parser.deployments].
  split; [done|].
  unfold format_markdown, print_subdict_in_markdown_table.
  rewrite !print_list_text. cbn [methods deployments]. split.
  - rewrite !added_section_rows;
      [done|done|intros k r; by apply parsed_deployments_avg
      |done|intros k r; by apply parsed_methods_avg].
  - rewrite !removed_section_rows;
      [done|done|intros k r; by apply parsed_deployments_avg
      |done|intros k r; by apply parsed_methods_avg].
Qed.

(** X16: when the two avg texts convert to the same non-zero integer, also
    when they differ as texts, the row shows a difference of "+0" and a
    percentage of "+0.00%", or "-0.00%" when that integer is negative. *)
Theorem calculate_line_same_value (before after : pystr) (n : Z) :
  Py.int before = ret n → Py.int after = ret n → n ≠ 0 →
  calculate_line before after =
    ret [before; after; u "+0";
         if n <? 0 then u "-0.00%" else u "+0.00%"].
Proof.
  intros Hb Ha Hn. unfold calculate_line. rewrite Hb, Ha. simpl.
  rewrite Z.sub_diag. unfold Py.int_true_divide.
  rewrite (proj2 (Z.eqb_neq n 0) Hn).
  destruct n as [|p|p]; [done| |]; vm_compute; reflexivity.
Qed.

Lemma calculate_line_same_value_witness :
  calculate_line (u "1000") (u " +1_000") =
    ret [u "1000"; u " +1_000"; u "+0"; u "+0.00%"].
Proof.
  apply (calculate_line_same_value (u "1000") (u " +1_000") 1000);
    [reflexivity|reflexivity|discriminate].
Defined.

Lemma for_each_ext {A} (xs : list A) (f g : A → io unit) :
  (∀ x, x ∈ xs → f x = g x) → IO.for_each xs f = IO.for_each xs g.
Proof.
  induction xs as [|x xs IH]; intros Hfg; [done|]. simpl.
  rewrite (Hfg x) by (by left).
  rewrite IH by (intros y Hy; apply Hfg; by right). done.
Qed.

Lemma format_markdown_ext (before after : report) (args1 args2 : Args) :
  (∀ key,
     print_table_line (methods before) (methods after) key args1 =
     print_table_line (methods before) (methods after) key args2) →
  (∀ key,
     print_table_line (deployments before) (deployments after) key args1 =
     print_table_line (deployments before) (deployments after) key args2) →
  format_markdown before after args1 = format_markdown before after args2.
Proof.
  intros Hm Hd. unfold format_markdown, print_subdict_in_markdown_table.
  rewrite (for_each_ext (dicts_union (methods before) (methods after)) _
             (fun key => print_table_line (methods before) (methods after)
                           key args2)) by (intros; apply Hm).
  rewrite (for_each_ext
             (dicts_union (deployments before) (deployments after)) _
             (fun key => print_table_line (deployments before)
                           (deployments after) key args2))
    by (intros; apply Hd).
  done.
Qed.

Lemma print_table_line_keep_zeros (before after : gmap pystr (gmap pystr pystr))
    (key : pystr) (both : bool) :
  (∀ b a, avg_of before key = ret b → avg_of after key = ret a → b ≠ a) →
  print_table_line before after key {| keep_zeros := true; both := both |} =
  print_table_line before after key {| keep_zeros := false; both := both |}.
Proof.
  intros Hne. unfold print_table_line.
  destruct (has_key before key && has_key after key); [|done].
  destruct (avg_of before key) as [e|b] eqn:Hb; [done|].
  destruct (avg_of after key) as [e|a] eqn:Ha; [done|].
  cbn [IO.lift IO.bind app keep_zeros negb andb].
  by rewrite (bool_decide_eq_false_2 _ (Hne b a eq_refl eq_refl)).
Qed.

(** X17: [keep_zeros] only matters for keys whose avg text is the same on
    both sides: when no key has the same avg text in the two reports, the
    table is the same with the option on and off. *)
Theorem keep_zeros_only_for_equal_avg (before after : report) (both : bool) :
  (∀ key b a,
     avg_of (methods before) key = ret b →
     avg_of (methods after) key = ret a → b ≠ a) →
  (∀ key b a,
     avg_of (deployments before) key = ret b →
     avg_of (deployments after) key = ret a → b ≠ a) →
  format_markdown before after {| keep_zeros := true; both := both |} =
  format_markdown before after {| keep_zeros := false; both := both |}.
Proof.
  intros Hm Hd. apply format_markdown_ext; intros key;
    apply print_table_line_keep_zeros; [apply Hm | apply Hd].
Qed.

Lemma keep_zeros_only_for_equal_avg_witness :
  format_markdown three_methods_before three_methods_after
    {| keep_zeros := true; both := true |} =
  format_markdown three_methods_before three_methods_after
    {| keep_zeros := false; both := true |}.
Proof.
  apply keep_zeros_only_for_equal_avg.
  - intros key b a Hb Ha.
    assert (key ∈ dom (methods three_methods_before)) as Hkey.
    { apply elem_of_dom. unfold avg_of, getitem in Hb.
      by destruct (methods three_methods_before !! key). }
    unfold three_methods_before in Hkey. cbn [methods] in Hkey.
    rewrite !dom_insert_L, dom_singleton_L in Hkey.
    apply elem_of_union in Hkey as [->%elem_of_singleton|Hkey];
      [|apply elem_of_union in Hkey
          as [->%elem_of_singleton| ->%elem_of_singleton]];
      vm_compute in Hb, Ha; congruence.
  - intros key b a Hb. unfold avg_of, getitem, three_methods_before in Hb.
    cbn [deployments] in Hb. by rewrite lookup_empty in Hb.
Defined.

Lemma has_key_dom {V} (d : gmap pystr V) (key : pystr) :
  has_key d key = bool_decide (key ∈ dom d).
Proof. unfold has_key. apply bool_decide_ext. by rewrite elem_of_dom. Qed.

(** X18: [both] only matters for keys that one report lacks: when the two
    reports have the same keys in each section, the table is the same with
    the option on and off. *)
Theorem both_only_for_one_sided_keys (before after : report)
    (keep_zeros : bool) :
  dom (methods before) = dom (methods after) →
  dom (deployments before) = dom (deployments after) →
  format_markdown before after {| keep_zeros := keep_zeros; both := true |} =
  format_markdown before after {| keep_zeros := keep_zeros; both := false |}.
Proof.
  intros Hm Hd. apply format_markdown_ext; intros key;
    unfold print_table_line; rewrite !has_key_dom, ?Hm, ?Hd;
    by case_bool_decide.
Qed.

Lemma both_only_for_one_sided_keys_witness :
  format_markdown three_methods_before three_methods_after
    {| keep_zeros := false; both := true |} =
  format_markdown three_methods_before three_methods_after
    {| keep_zeros := false; both := false |}.
Proof.
  apply both_only_for_one_sided_keys.
  - unfold three_methods_before, three_methods_after. cbn [methods].
    by rewrite !dom_insert_L, !dom_singleton_L.
  - reflexivity.
Defined.

Lemma split_length (sep : N) (s : pystr) :
  length (Str.split sep s) = S (length (filter (fun c => c = sep) s)).
Proof.
  induction s as [|c s IH]; [done|]. simpl. rewrite filter_cons.
  destruct (N.eqb_spec c sep) as [->|Hne].
  - rewrite decide_True by done. simpl. by rewrite IH.
  - rewrite decide_False by done. rewrite <- IH.
    pose proof (split_not_nil sep s). by destruct (Str.split sep s).
Qed.

Lemma flatten_columns_length (columns : list pystr) :
  (length (flatten_columns columns) ≤ length columns)%nat.
Proof.
  induction columns as [|column rest IH]; simpl; [lia|].
  destruct (truthy _); simpl; lia.
Qed.

(** X19: a line gives at most one column more than it has middle dots. *)
Theorem flatten_line_length (line : pystr) :
  (length (flatten_line line)
   ≤ S (length (filter (fun c => c = MIDDLE_DOT) line)))%nat.
Proof.
  unfold flatten_line. rewrite <- split_length.
  apply flatten_columns_length.
Qed.

Lemma body_size (l l' : Parser.locals) (line : pystr) :
  Parser.body l line = ret l' →
  (size (Parser.methods l') + size (Parser.deployments l')
   ≤ S (size (Parser.methods l) + size (Parser.deployments l)))%nat.
Proof.
  intros Hb.
  apply body_inv in Hb
    as [(_ & -> & -> & _)|[(_ & -> & _ & Hb)|(_ & -> & _ & _ & Hb)]];
    [lia| |].
  - destruct (Str.contains _ line).
    + destruct Hb as [-> _]. lia.
    + destruct Hb as (_ & [->|(? & ? & ? & ? & ? & ? & ? & _ & ->)]); [lia|].
      rewrite map_size_insert. destruct (_ !! _); simpl; lia.
  - destruct Hb as [->|(? & ? & ? & ? & ? & ? & _ & ->)]; [lia|].
    rewrite map_size_insert. destruct (_ !! _); simpl; lia.
Qed.

(** X20: a line stores at most one record: the report of a file holds, in
    its two mappings together, at most as many records as the file has
    lines. *)
Theorem report_size (lines : list pystr) :
  ∃ rep, new_report_dict_from_file lines = ret rep ∧
         (size (methods rep) + size (deployments rep) ≤ length lines)%nat.
Proof.
  destruct (loop_total Parser.init lines) as (l & Hl).
  exists (Report (Parser.methods l) (Parser.deployments l)).
  split; [unfold new_report_dict_from_file; by rewrite Hl|]. simpl.
  assert (∀ l0 l1, Parser.loop l0 lines = ret l1 →
            size (Parser.methods l1) + size (Parser.deployments l1)
            ≤ size (Parser.methods l0) + size (Parser.deployments l0)
              + length lines)%nat as Hgen.
  { clear. induction lines as [|line lines IH]; intros l0 l1 Hloop.
    - injection Hloop as <-. simpl. lia.
    - simpl in Hloop. apply bind_ret_inv in Hloop as (l2 & Hb & Hloop).
      apply body_size in Hb. apply IH in Hloop. simpl. lia. }
  apply Hgen in Hl. simpl in Hl. by rewrite !map_size_empty in Hl.
Qed.

(** ** The cells of a row *)

Lemma scan_uint_chars (acc : Z) (digits : N) (d : Decimal.uint) :
  Py.scan_digits acc digits false (Py.uint_chars d) =
  Some (uint_value acc d, (digits + N.of_nat (length (Py.uint_chars d)))%N, []).
Proof.
  revert acc digits. induction d; intros acc digits; simpl;
    [by rewrite N.add_0_r|..];
    rewrite IHd; do 3 f_equal; lia.
Qed.

Lemma uint_value_of_lu (acc : Z) (d : Decimal.uint) :
  uint_value acc d =
  acc * 10 ^ Z.of_N (DecimalPos.Unsigned.usize d)
  + Z.of_N (DecimalPos.Unsigned.of_lu (Decimal.rev d)).
Proof.
  revert acc. unfold Decimal.rev.
  induction d; intros acc; simpl uint_value;
    [simpl; lia|..];
    rewrite IHd; simpl Decimal.revapp;
    rewrite (DecimalPos.Unsigned.of_lu_revapp d (_ Decimal.Nil));
    simpl DecimalPos.Unsigned.usize; simpl DecimalPos.Unsigned.of_lu;
    rewrite N2Z.inj_succ, Z.pow_succ_r by lia;
    unfold Decimal.rev;
    rewrite N2Z.inj_add, N2Z.inj_mul, N2Z.inj_pow; simpl Z.of_N; lia.
Qed.

Lemma uint_value_to_uint (m : N) : uint_value 0 (N.to_uint m) = Z.of_N m.
Proof.
  rewrite uint_value_of_lu, <- DecimalPos.Unsigned.of_uint_alt.
  change (Pos.of_uint (N.to_uint m)) with (N.of_uint (N.to_uint m)).
  rewrite DecimalN.Unsigned.of_to. lia.
Qed.

Lemma magnitude_decimal (m : N) :
  Py.magnitude (Py.decimal m) =
  Some (Z.of_N m, N.of_nat (length (Py.decimal m)), []).
Proof.
  unfold Py.decimal. rewrite <- uint_value_to_uint.
  assert (N.to_uint m ≠ Decimal.Nil) as Hnn.
  { destruct m; [done|]. apply DecimalPos.Unsigned.to_uint_nonnil. }
  destruct (N.to_uint m); [done|..]; simpl;
    rewrite scan_uint_chars; do 3 f_equal; lia.
Qed.

Lemma uint_chars_ascii (d : Decimal.uint) : Py.is_ascii (Py.uint_chars d) = true.
Proof. induction d; simpl; done. Qed.

Lemma too_many_digits_mono (strlen digits : N) :
  (digits ≤ strlen)%N →
  Py.too_many_digits strlen digits = false →
  Py.too_many_digits digits digits = false.
Proof.
  unfold Py.too_many_digits. rewrite !andb_false_iff, !N.ltb_ge. lia.
Qed.

(** What ["{:+d}".format] prints, [int] reads back. *)
Lemma int_format_plus_d (n : Z) (d : pystr) :
  Py.format_plus_d n = ret d → Py.int d = ret n.
Proof.
  unfold Py.format_plus_d.
  destruct (Py.too_many_digits _ _) eqn:Hlim; [done|]. intros [= <-].
  apply too_many_digits_mono in Hlim; [|destruct (n <? 0); lia].
  unfold Py.int, Py.to_ascii.
  assert (Py.is_ascii (Py.sign_char (n <? 0) :: Py.decimal (Z.abs_N n)) = true)
    as ->.
  { change (Py.is_ascii (Py.sign_char (n <? 0) :: Py.decimal (Z.abs_N n)))
      with (N.ltb (Py.sign_char (n <? 0)) 128
            && Py.is_ascii (Py.uint_chars (N.to_uint (Z.abs_N n)))).
    rewrite uint_chars_ascii. by destruct (n <? 0). }
  destruct (n <? 0) eqn:Hn; simpl; rewrite magnitude_decimal, Hlim; simpl;
    f_equal; lia.
Qed.

(** X21: when a row is computed, its first two cells are the two avg texts
    as they are, and its third cell, read back as an integer, is the after
    value minus the before value. *)
Theorem diff_cell_reads_back (before after : pystr) (cells : list pystr) :
  calculate_line before after = ret cells →
  ∃ before_int after_int diff pct,
    Py.int before = ret before_int ∧ Py.int after = ret after_int ∧
    before_int ≠ 0 ∧
    cells = [before; after; diff; pct] ∧
    Py.int diff = ret (after_int - before_int).
Proof.
  unfold calculate_line.
  destruct (Py.int before) as [e|bi]; [done|].
  destruct (Py.int after) as [e|ai]; [done|]. simpl.
  destruct (Py.int_true_divide (ai - bi) bi) as [e|q] eqn:Hq; [done|]. simpl.
  destruct (Py.format_plus_d (ai - bi)) as [e|d] eqn:Hd; [done|].
  intros [= <-]. exists bi, ai. do 2 eexists.
  split; [done|]. split; [done|]. split.
  - intros ->. unfold Py.int_true_divide in Hq. by rewrite Z.eqb_refl in Hq.
  - split; [done|]. by apply int_format_plus_d.
Qed.

Lemma diff_cell_reads_back_witness :
  ∃ before_int after_int diff pct,
    Py.int (u "150") = ret before_int ∧ Py.int (u "100") = ret after_int ∧
    before_int ≠ 0 ∧
    [u "150"; u "100"; u "-50"; u "-33.33%"] =
      [u "150"; u "100"; diff; pct] ∧
    Py.int diff = ret (after_int - before_int).
Proof.
  apply (diff_cell_reads_back (u "150") (u "100")).
  vm_compute. reflexivity.
Defined.
